(** * Director 4.0, [apps/sites/forms.py]: the validation rules of the site forms

    A shallow embedding of the form fields and [clean] methods declared in
    [manager/director/apps/sites/forms.py], together with the parts of
    Python ([str], [re]) and of Django ([forms.CharField], [forms.FloatField],
    [core.validators], [Form.full_clean]) that these declarations run on.

    - [Py]      : Python strings as lists of code points, [strip], [split],
                  [endswith].
    - [Re]      : the parsed form of a pattern and a backtracking matcher
                  giving [re.search].
    - [Django]  : validators, fields and their [clean] pipeline.
    - [Forms]   : the forms of the source file.
    - [Spec]    : the language of a pattern, and the properties the
                  statements below are written with.
    - lemmas on the matcher, on strings and on the fields, then the
      statements about the forms. *)

From Stdlib Require Import ZArith NArith List Ascii String Bool Lia.
From Stdlib Require Import SpecFloat.
From stdpp Require Import gmap strings list fin_maps.

Local Open Scope N_scope.

(* ===================================================================== *)
(** * Python strings *)
(* ===================================================================== *)

Module Py.

(** A Python [str] is a sequence of Unicode code points. *)
Abbreviation str := (list N).

(** [ord] of an ASCII character, and a [str] literal. *)
Definition ord (a : ascii) : N := N_of_ascii a.

Definition lit (s : string) : str := map ord (list_ascii_of_string s).

Arguments ord _%_char.
Arguments lit _%_string.

(** [Py_UNICODE_ISSPACE]: the characters [str.strip], [str.split] and the
    pattern escape [\s] treat as whitespace. *)
Definition isspace (c : N) : bool :=
  ((0x09 <=? c) && (c <=? 0x0D)) || ((0x1C <=? c) && (c <=? 0x20))
  || (c =? 0x85) || (c =? 0xA0) || (c =? 0x1680)
  || ((0x2000 <=? c) && (c <=? 0x200A))
  || (c =? 0x2028) || (c =? 0x2029) || (c =? 0x202F) || (c =? 0x205F)
  || (c =? 0x3000).

(** [Py_UNICODE_ISDECIMAL]: the code points of category Nd, which come in
    runs of ten starting at a zero digit (Unicode 14.0). *)
Definition decimal_zeros : list N :=
  [ 0x30; 0x660; 0x6F0; 0x7C0; 0x966; 0x9E6; 0xA66; 0xAE6; 0xB66; 0xBE6;
    0xC66; 0xCE6; 0xD66; 0xDE6; 0xE50; 0xED0; 0xF20; 0x1040; 0x1090; 0x17E0;
    0x1810; 0x1946; 0x19D0; 0x1A80; 0x1A90; 0x1B50; 0x1BB0; 0x1C40; 0x1C50;
    0xA620; 0xA8D0; 0xA900; 0xA9D0; 0xA9F0; 0xAA50; 0xABF0; 0xFF10; 0x104A0;
    0x10D30; 0x11066; 0x110F0; 0x11136; 0x111D0; 0x112F0; 0x11450; 0x114D0;
    0x11650; 0x116C0; 0x11730; 0x118E0; 0x11950; 0x11C50; 0x11D50; 0x11DA0;
    0x16A60; 0x16AC0; 0x16B50; 0x1D7CE; 0x1D7D8; 0x1D7E2; 0x1D7EC; 0x1D7F6;
    0x1E140; 0x1E2F0; 0x1E950; 0x1FBF0 ].

Definition isdecimal (c : N) : bool :=
  existsb (fun z => (z <=? c) && (c <? z + 10)) decimal_zeros.

(** [s.lstrip()], [s.rstrip()], [s.strip()]. *)
Fixpoint lstrip (s : str) : str :=
  match s with
  | c :: t => if isspace c then lstrip t else s
  | [] => []
  end.

Definition rstrip (s : str) : str := rev (lstrip (rev s)).

Definition strip (s : str) : str := rstrip (lstrip s).

(** [s.split()] with no separator: the maximal runs of non-whitespace
    characters, in order. [word] is the run being scanned, reversed. *)
Fixpoint split_from (word : str) (s : str) : list str :=
  match s with
  | [] => match word with [] => [] | _ => [rev word] end
  | c :: t =>
      if isspace c
      then match word with
           | [] => split_from [] t
           | _ => rev word :: split_from [] t
           end
      else split_from (c :: word) t
  end.

Definition split (s : str) : list str := split_from [] s.

(** Equality of strings, and [s.endswith(suffix)]. *)
Fixpoint str_eqb (a b : str) : bool :=
  match a, b with
  | [], [] => true
  | x :: a', y :: b' => (x =? y) && str_eqb a' b'
  | _, _ => false
  end.

Definition endswith (s suffix : str) : bool :=
  (length suffix <=? length s)%nat
  && str_eqb (drop (length s - length suffix) s) suffix.

(** [any(...)] over a list. *)
Definition any {A} (p : A -> bool) (l : list A) : bool := existsb p l.

End Py.

Import Py.

(* ===================================================================== *)
(** * Python regular expressions *)
(* ===================================================================== *)

Module Re.

(** The parse tree [sre_parse] builds for the constructs the patterns of
    the forms use. *)
Inductive category := CATEGORY_DIGIT | CATEGORY_SPACE.

Inductive set_item :=
| ITEM_LITERAL (c : N)
| ITEM_RANGE (lo hi : N)
| ITEM_CATEGORY (k : category).

Inductive at_code := AT_BEGINNING | AT_END.

Inductive regex :=
| EMPTY
| LITERAL (c : N)
| ANY
| IN (items : list set_item)
| AT (a : at_code)
| CAT (r1 r2 : regex)
| MAX_REPEAT (lo : nat) (hi : option nat) (r : regex)
| SUBPATTERN (r : regex)
| ASSERT_NOT (r : regex).

(** The repetition operators. *)
Definition STAR (r : regex) : regex := MAX_REPEAT 0 None r.
Definition PLUS (r : regex) : regex := MAX_REPEAT 1 None r.
Definition OPT (r : regex) : regex := MAX_REPEAT 0 (Some 1%nat) r.

(** A literal string inside a pattern. *)
Fixpoint LITERALS (s : str) : regex :=
  match s with
  | [] => EMPTY
  | c :: t => CAT (LITERAL c) (LITERALS t)
  end.

Declare Scope regex_scope.
Delimit Scope regex_scope with re.
Bind Scope regex_scope with regex.
Infix "⋅" := CAT (at level 41, right associativity) : regex_scope.

(** Membership in a category and in a set [[...]] (patterns over [str],
    no flags: the Unicode categories). *)
Definition in_category (k : category) (c : N) : bool :=
  match k with
  | CATEGORY_DIGIT => isdecimal c
  | CATEGORY_SPACE => isspace c
  end.

Definition in_item (c : N) (i : set_item) : bool :=
  match i with
  | ITEM_LITERAL x => c =? x
  | ITEM_RANGE lo hi => (lo <=? c) && (c <=? hi)
  | ITEM_CATEGORY k => in_category k c
  end.

Definition in_set (items : list set_item) (c : N) : bool :=
  existsb (in_item c) items.

Definition newline : N := 10.

(** ** The matcher

    A position of the subject is the suffix that remains to be read; [n] is
    the length of the whole subject. [ends n r s] lists the positions at
    which a match of [r] that starts at [s] can end, over all the choices a
    backtracking matcher can make. *)
Section Repeat.
Variable step : str -> list str.

(** exactly [k] iterations *)
Fixpoint rep_exact (k : nat) (s : str) : list str :=
  match k with
  | O => [s]
  | S k' => flat_map (rep_exact k') (step s)
  end.

(** at most [fuel] further iterations; an iteration that reads nothing is
    not repeated *)
Fixpoint rep_upto (fuel : nat) (s : str) : list str :=
  s :: match fuel with
       | O => []
       | S fuel' =>
           flat_map (rep_upto fuel')
             (List.filter (fun s' => (length s' <? length s)%nat) (step s))
       end.
End Repeat.

Fixpoint ends (n : nat) (r : regex) (s : str) : list str :=
  match r with
  | EMPTY => [s]
  | LITERAL c =>
      match s with
      | x :: t => if x =? c then [t] else []
      | [] => []
      end
  | ANY =>
      match s with
      | x :: t => if x =? newline then [] else [t]
      | [] => []
      end
  | IN items =>
      match s with
      | x :: t => if in_set items x then [t] else []
      | [] => []
      end
  | AT AT_BEGINNING => if (length s =? n)%nat then [s] else []
  | AT AT_END =>
      match s with
      | [] => [s]
      | [x] => if x =? newline then [s] else []
      | _ => []
      end
  | CAT r1 r2 => flat_map (ends n r2) (ends n r1 s)
  | MAX_REPEAT lo hi r =>
      flat_map
        (fun s' =>
           rep_upto (ends n r)
             (match hi with Some h => h - lo | None => length s' end)%nat s')
        (rep_exact (ends n r) lo s)
  | SUBPATTERN r => ends n r s
  | ASSERT_NOT r =>
      match ends n r s with
      | [] => [s]
      | _ => []
      end
  end.

(** [match_at r subject k]: some match of [r] starts at index [k]. *)
Definition match_at (r : regex) (subject : str) (k : nat) : bool :=
  match ends (length subject) r (drop k subject) with
  | [] => false
  | _ => true
  end.

(** [r.search(subject)] finds a match: one starts at some index
    [0 .. len(subject)]. *)
Definition search (r : regex) (subject : str) : bool :=
  existsb (match_at r subject) (seq 0 (S (length subject))).

End Re.

Import Re.

(* ===================================================================== *)
(** * Django: validators, fields, forms *)
(* ===================================================================== *)

Module Django.

Local Open Scope string_scope.

(** [django.core.exceptions.ValidationError] with its message and code. *)
Record ValidationError := { message : string; code : option string }.

(** A call either returns or raises [ValidationError(errors)]. *)
Inductive outcome (A : Type) :=
| Return (a : A)
| Raise (errors : list ValidationError).

Arguments Return {A} a.
Arguments Raise {A} errors.

(** The Python exceptions a [clean] method of the source can let escape, and
    the result of a call that may raise one. *)
Inductive exn := KeyError (key : string) | AttributeError.

Inductive result (A : Type) :=
| Ok (a : A)
| Throw (e : exn).

Arguments Ok {A} a.
Arguments Throw {A} e.

(** ** [django.core.validators]

    A validator is called on a value and raises at most one error. *)
Definition validator (A : Type) := A -> option ValidationError.

Definition MinLengthValidator (limit_value : nat) : validator str :=
  fun value =>
    if (length value <? limit_value)%nat
    then Some {| message := "Ensure this value has at least %(limit_value)d characters (it has %(show_value)d).";
                 code := Some "min_length" |}
    else None.

Definition MaxLengthValidator (limit_value : nat) : validator str :=
  fun value =>
    if (limit_value <? length value)%nat
    then Some {| message := "Ensure this value has at most %(limit_value)d characters (it has %(show_value)d).";
                 code := Some "max_length" |}
    else None.

(** [RegexValidator(regex=..., message=...)]: [inverse_match] is left at its
    default, so the value is invalid when [regex.search(str(value))] finds
    nothing. *)
Definition RegexValidator (regex : regex) (message : string) : validator str :=
  fun value =>
    if search regex value
    then None
    else Some {| message := message; code := Some "invalid" |}.

Definition ProhibitNullCharactersValidator : validator str :=
  fun value =>
    if existsb (N.eqb 0) value
    then Some {| message := "Null characters are not allowed.";
                 code := Some "null_characters_not_allowed" |}
    else None.

(** [MinValueValidator]: invalid when [value < limit_value];
    [MaxValueValidator]: invalid when [value > limit_value]. *)
Definition MinValueValidator (limit_value : spec_float) : validator spec_float :=
  fun value =>
    if SFltb value limit_value
    then Some {| message := "Ensure this value is greater than or equal to %(limit_value)s.";
                 code := Some "min_value" |}
    else None.

Definition MaxValueValidator (limit_value : spec_float) : validator spec_float :=
  fun value =>
    if SFltb limit_value value
    then Some {| message := "Ensure this value is less than or equal to %(limit_value)s.";
                 code := Some "max_value" |}
    else None.

(** [Field.run_validators] for a value that is not in [empty_values]: every
    validator runs, the errors are collected, and they are raised together
    when there is one. *)
Definition run_validators {A} (validators : list (validator A)) (value : A)
  : outcome A :=
  match omap (fun v => v value) validators with
  | [] => Return value
  | errors => Raise errors
  end.

Definition required_error : ValidationError :=
  {| message := "This field is required."; code := Some "required" |}.

(** ** [forms.CharField] *)
Record CharField := {
  required : bool;
  max_length : option nat;
  min_length : option nat;
  strip_value : bool;
  validators : list (validator str)
}.

(** The keyword defaults of [CharField.__init__]. *)
Definition CharField_init (required : bool) (max_length : option nat)
    (validators : list (validator str)) : CharField :=
  {| required := required; max_length := max_length; min_length := None;
     strip_value := true; validators := validators |}.

(** [self.validators] once [__init__] has run: the given validators, then
    the length validators, then the null character check. *)
Definition CharField_validators (f : CharField) : list (validator str) :=
  (validators f
   ++ match min_length f with Some n => [MinLengthValidator n] | None => [] end
   ++ match max_length f with Some n => [MaxLengthValidator n] | None => [] end
   ++ [ProhibitNullCharactersValidator])%list.

(** [CharField.to_python]: the submitted value is [None] when the key is
    absent from the data. Empty values become the [empty_value], [''];
    anything else is stripped. *)
Definition CharField_to_python (f : CharField) (value : option str) : str :=
  match value with
  | None | Some [] => []
  | Some s => if strip_value f then strip s else s
  end.

(** [Field.clean]: [to_python], then [validate] (the [required] check), then
    [run_validators], which skips empty values. *)
Definition CharField_clean (f : CharField) (value : option str) : outcome str :=
  let value := CharField_to_python f value in
  match value with
  | [] => if required f then Raise [required_error] else Return value
  | _ => run_validators (CharField_validators f) value
  end.

(** ** [forms.FloatField]

    A Python [float] is an IEEE 754 binary64 value. [float(value)] is the
    interpreter's conversion from text; it is a parameter of the field
    ([None] stands for [ValueError]). *)
Definition prec : Z := 53.
Definition emax : Z := 1024.

(** The [float] equal to a (small) [int] limit. *)
Definition float_of_int (z : Z) : spec_float := binary_normalize prec emax z 0 false.

Definition isfinite (x : spec_float) : bool :=
  match x with
  | S754_zero _ | S754_finite _ _ _ => true
  | S754_infinity _ | S754_nan => false
  end.

Record FloatField := {
  f_required : bool;
  min_value : option Z;
  max_value : option Z
}.

Definition invalid_number : ValidationError :=
  {| message := "Enter a number."; code := Some "invalid" |}.

(** [IntegerField.__init__] appends the maximum validator, then the minimum
    one. *)
Definition FloatField_validators (f : FloatField) : list (validator spec_float) :=
  (match max_value f with Some m => [MaxValueValidator (float_of_int m)] | None => [] end
   ++ match min_value f with Some m => [MinValueValidator (float_of_int m)] | None => [] end)%list.

(** [FloatField.clean]: [to_python] gives [None] for an empty value and
    [float(value)] otherwise; [validate] checks [required] and
    [math.isfinite]; then the validators run. The result is [None] or the
    float. *)
Definition FloatField_clean (float : str -> option spec_float)
    (f : FloatField) (value : option str) : outcome (option spec_float) :=
  match value with
  | None | Some [] =>
      if f_required f then Raise [required_error] else Return None
  | Some s =>
      match float s with
      | None => Raise [invalid_number]
      | Some x =>
          if isfinite x
          then match run_validators (FloatField_validators f) x with
               | Return x => Return (Some x)
               | Raise errors => Raise errors
               end
          else Raise [invalid_number]
      end
  end.

(** ** Forms

    The values a form stores in [cleaned_data], and the state [full_clean]
    builds: [cleaned_data] and the [errors] of each field. *)
Inductive value :=
| VNone
| VStr (s : str)
| VBool (b : bool)
| VFloat (x : spec_float).

Record form_state := {
  cleaned_data : gmap string value;
  errors : gmap string (list ValidationError)
}.

Definition initial_state : form_state :=
  {| cleaned_data := ∅; errors := ∅ |}.

(** [Form.add_error(field, error)]: the errors are appended to those of the
    field, and the field leaves [cleaned_data]. *)
Definition add_error (field : string) (error : list ValidationError)
    (st : form_state) : form_state :=
  {| cleaned_data := delete field (cleaned_data st);
     errors := <[field := (default [] (errors st !! field) ++ error)%list]> (errors st) |}.

(** One iteration of [Form._clean_fields]: the cleaned value is stored, or
    the error raised by the field is added. *)
Definition clean_field (name : string) (result : outcome value)
    (st : form_state) : form_state :=
  match result with
  | Return v =>
      {| cleaned_data := <[name := v]> (cleaned_data st); errors := errors st |}
  | Raise errs => add_error name errs st
  end.

Definition outcome_map {A B} (g : A -> B) (o : outcome A) : outcome B :=
  match o with
  | Return a => Return (g a)
  | Raise errs => Raise errs
  end.

(** The errors of a field, as [form.errors.get(field, [])]. *)
Definition field_errors (field : string) (st : form_state) : list ValidationError :=
  default [] (errors st !! field).

(** [form.is_valid()] for a bound form: no errors. *)
Definition is_valid (st : form_state) : bool :=
  bool_decide (errors st = ∅).

End Django.

Import Django.

(* ===================================================================== *)
(** * The forms of [apps/sites/forms.py] *)
(* ===================================================================== *)

Module Forms.

Local Open Scope string_scope.
Local Open Scope regex_scope.

(** ** [SiteCreateForm]: the help text of [name] *)
Definition SiteCreateForm_help_text_name : string :=
  "Can only contain lowercase letters, numbers, and dashes. Names cannot start with a number, and dashes must go between two non-dash characters. Maximum length of 32 characters.".

(** ** [SiteNamesForm] *)

(** [[a-z0-9]] *)
Definition lower_alnum : list set_item :=
  [ITEM_RANGE (ord "a") (ord "z"); ITEM_RANGE (ord "0") (ord "9")].

Definition dash : N := ord "-".

(** [^[a-z0-9]+(-[a-z0-9]+)*$] *)
Definition name_body : regex :=
  PLUS (IN lower_alnum) ⋅ STAR (SUBPATTERN (LITERAL dash ⋅ PLUS (IN lower_alnum))).

Definition name_regex : regex := AT AT_BEGINNING ⋅ name_body ⋅ AT AT_END.

Definition name_message : string :=
  "Site names must consist of lowercase letters, numbers, and dashes. Dashes must go between two non-dash characters.".

Definition SiteNamesForm_name : CharField :=
  CharField_init true (Some 32%nat)
    [MinLengthValidator 2; RegexValidator name_regex name_message].

(** ** [DomainForm] *)

(** [[0-9a-zA-Z_\- .]] *)
Definition domain_chars : list set_item :=
  [ITEM_RANGE (ord "0") (ord "9"); ITEM_RANGE (ord "a") (ord "z");
   ITEM_RANGE (ord "A") (ord "Z"); ITEM_LITERAL (ord "_");
   ITEM_LITERAL (ord "-"); ITEM_LITERAL (ord " "); ITEM_LITERAL (ord ".")].

(** [(.*\.)?sites\.tjhsst\.edu], the body of the lookahead before its [$] *)
Definition sites_body : regex :=
  OPT (SUBPATTERN (STAR ANY ⋅ LITERAL (ord "."))) ⋅ LITERALS (lit "sites.tjhsst.edu").

(** [^(?!(.*\.)?sites\.tjhsst\.edu$)[0-9a-zA-Z_\- .]+$] *)
Definition domain_regex : regex :=
  AT AT_BEGINNING ⋅ ASSERT_NOT (sites_body ⋅ AT AT_END)
  ⋅ PLUS (IN domain_chars) ⋅ AT AT_END.

Definition domain_message : string :=
  "You can only have one sites.tjhsst.edu domain, the automatically generated one that matches the name of your site.".

Definition DomainForm_domain : CharField :=
  CharField_init false (Some 255%nat) [RegexValidator domain_regex domain_message].

Definition administrators_only : ValidationError :=
  {| message := "Only administrators can add tjhsst.edu domains"; code := None |}.

(** [_clean_fields]: the form has the one field. *)
Definition DomainForm_clean_fields (data : gmap string str) : form_state :=
  clean_field "domain"
    (outcome_map VStr (CharField_clean DomainForm_domain (data !! "domain")))
    initial_state.

(** [DomainForm.clean] *)
Definition DomainForm_clean (user_is_superuser : bool) (st : form_state)
  : result form_state :=
  if negb user_is_superuser
  then match cleaned_data st !! "domain" with
       | None => Ok st
       | Some (VStr domain) =>
           if endswith domain (lit "tjhsst.edu")
           then Ok (add_error "domain" [administrators_only] st)
           else Ok st
       | Some _ => Throw AttributeError
       end
  else Ok st.

(** [full_clean] of a bound [DomainForm(data, user_is_superuser=...)]. *)
Definition DomainForm_full_clean (user_is_superuser : bool)
    (data : gmap string str) : result form_state :=
  DomainForm_clean user_is_superuser (DomainForm_clean_fields data).

(** ** [ImageSelectForm] *)
Definition ImageSelectForm_packages : CharField := CharField_init false None [].

Definition package_too_long : ValidationError :=
  {| message := "One of your package names is too long"; code := None |}.

(** [_clean_fields]: [image] (a choice among the images of the database) and
    [write_run_sh_file] are cleaned first; what their fields return or raise
    is given. *)
Definition ImageSelectForm_clean_fields (image write_run_sh_file : outcome value)
    (data : gmap string str) : form_state :=
  clean_field "packages"
    (outcome_map VStr (CharField_clean ImageSelectForm_packages (data !! "packages")))
    (clean_field "write_run_sh_file" write_run_sh_file
       (clean_field "image" image initial_state)).

(** [ImageSelectForm.clean]; [max_package_name_length] is
    [DockerImageExtraPackage._meta.get_field("name").max_length], a constant
    of the models module. *)
Definition ImageSelectForm_clean (max_package_name_length : nat)
    (st : form_state) : result form_state :=
  match cleaned_data st !! "packages" with
  | None => Throw (KeyError "packages")
  | Some (VStr packages) =>
      let package_names := split (strip packages) in
      if any (fun name => (max_package_name_length <? length name)%nat) package_names
      then Ok (add_error "packages" [package_too_long] st)
      else Ok st
  | Some _ => Throw AttributeError
  end.

Definition ImageSelectForm_full_clean (max_package_name_length : nat)
    (image write_run_sh_file : outcome value) (data : gmap string str)
  : result form_state :=
  ImageSelectForm_clean max_package_name_length
    (ImageSelectForm_clean_fields image write_run_sh_file data).

(** ** [SiteResourceLimitsForm] *)
Definition SiteResourceLimitsForm_cpus : FloatField :=
  {| f_required := false; min_value := Some 0%Z; max_value := Some 3%Z |}.

(** [^(\d+(\s*[KMG]i?B)?)?$] *)
Definition mem_suffix : regex :=
  STAR (IN [ITEM_CATEGORY CATEGORY_SPACE])
  ⋅ IN [ITEM_LITERAL (ord "K"); ITEM_LITERAL (ord "M"); ITEM_LITERAL (ord "G")]
  ⋅ OPT (LITERAL (ord "i")) ⋅ LITERAL (ord "B").

Definition mem_body : regex :=
  OPT (SUBPATTERN (PLUS (IN [ITEM_CATEGORY CATEGORY_DIGIT]) ⋅ OPT (SUBPATTERN mem_suffix))).

Definition mem_regex : regex := AT AT_BEGINNING ⋅ mem_body ⋅ AT AT_END.

Definition mem_message : string :=
  "Must be either 1) blank for the default limit or 2) a number followed by one of the suffixes KiB, MiB, or GiB (powers of 1024) or KB, MB, GB (powers of 1000).".

Definition SiteResourceLimitsForm_mem_limit : CharField :=
  CharField_init false (Some 10%nat) [RegexValidator mem_regex mem_message].

(** ** Acceptance of a submitted string by a field *)
Definition returns {A} (o : outcome A) : bool :=
  match o with Return _ => true | Raise _ => false end.

Definition name_accepts (submitted : str) : bool :=
  returns (CharField_clean SiteNamesForm_name (Some submitted)).

Definition domain_field_accepts (submitted : str) : bool :=
  returns (CharField_clean DomainForm_domain (Some submitted)).

Definition mem_limit_accepts (submitted : str) : bool :=
  returns (CharField_clean SiteResourceLimitsForm_mem_limit (Some submitted)).

Definition cpus_accepts (float : str -> option spec_float)
    (submitted : option str) : bool :=
  returns (FloatField_clean float SiteResourceLimitsForm_cpus submitted).

End Forms.

Import Forms.

(* ===================================================================== *)
(** * Specifications *)
(* ===================================================================== *)

Module Spec.

(** ** The language of a pattern

    [pure r]: [r] has no anchor and no lookahead, so what it matches does
    not depend on the position in the subject. [lang r w]: the word [w] is
    matched by such an [r]. *)
Fixpoint pure (r : regex) : bool :=
  match r with
  | AT _ | ASSERT_NOT _ => false
  | CAT a b => pure a && pure b
  | MAX_REPEAT _ _ a | SUBPATTERN a => pure a
  | EMPTY | LITERAL _ | ANY | IN _ => true
  end.

Definition nonempty_word (L : str -> Prop) (w : str) : Prop := L w /\ w <> [].

Definition within (hi : option nat) (lo k : nat) : Prop :=
  match hi with Some h => (k <= h - lo)%nat | None => True end.

Fixpoint lang (r : regex) (w : str) : Prop :=
  match r with
  | EMPTY => w = []
  | LITERAL c => w = [c]
  | ANY => exists x, w = [x] /\ x <> newline
  | IN items => exists x, w = [x] /\ in_set items x = true
  | CAT a b => exists u v, w = u ++ v /\ lang a u /\ lang b v
  | MAX_REPEAT lo hi a =>
      exists us vs, w = concat us ++ concat vs
        /\ length us = lo /\ Forall (lang a) us
        /\ Forall (nonempty_word (lang a)) vs /\ within hi lo (length vs)
  | SUBPATTERN a => lang a w
  | AT _ | ASSERT_NOT _ => False
  end.

(** [f] reads exactly the words of [L] off the front of its argument. *)
Definition recognises (f : str -> list str) (L : str -> Prop) : Prop :=
  forall s s', In s' (f s) <-> exists w, L w /\ s = w ++ s'.

(** A match of the whole subject: [$] also matches before a final newline. *)
Definition whole (L : str -> Prop) (s : str) : Prop :=
  exists w, L w /\ (s = w \/ s = w ++ [newline]).

(** Words of one character. *)
Definition one (P : N -> Prop) (w : str) : Prop := exists x, w = [x] /\ P x.

(** ** Domains *)
Definition reserved : str := lit "tjhsst.edu".
Definition sites : str := lit "sites.tjhsst.edu".
Definition dot_sites : str := lit ".sites.tjhsst.edu".

(** The error the regex validator of [DomainForm.domain] raises. *)
Definition domain_invalid : ValidationError :=
  {| message := domain_message; code := Some "invalid"%string |}.

(** ** Site names

    Groups of lowercase letters and digits, joined by single dashes. *)
Definition is_lower_alnum (c : N) : bool :=
  ((ord "a" <=? c) && (c <=? ord "z")) || ((ord "0" <=? c) && (c <=? ord "9")).

Definition group (g : str) : Prop :=
  g <> [] /\ Forall (fun c => is_lower_alnum c = true) g.

Definition dashed_groups (v : str) : Prop :=
  exists g gs, group g /\ Forall group gs /\ v = g ++ concat (map (cons dash) gs).

(** The same, said character by character: only lowercase letters, digits
    and dashes, no dash first or last, no two dashes in a row. *)
Definition name_char (c : N) : Prop := is_lower_alnum c = true \/ c = dash.

Definition interior_dashes (v : str) : Prop :=
  v <> []
  /\ Forall name_char v
  /\ (forall t, v <> dash :: t)
  /\ (forall t, v <> t ++ [dash])
  /\ (forall a b, v <> a ++ dash :: dash :: b).

(** A scan of the string that remembers whether the character before was a
    letter or digit. *)
Fixpoint scan (after_alnum : bool) (v : str) : bool :=
  match v with
  | [] => after_alnum
  | c :: t =>
      if is_lower_alnum c then scan true t
      else if c =? dash then after_alnum && scan false t
      else false
  end.

(** ** Memory sizes

    Digits, then possibly whitespace and one of the six suffixes. *)
Definition suffixes : list str :=
  [lit "KiB"; lit "MiB"; lit "GiB"; lit "KB"; lit "MB"; lit "GB"].

Definition digits (ds : str) : Prop :=
  ds <> [] /\ Forall (fun c => isdecimal c = true) ds.

Definition spaces_suffix (x : str) : Prop :=
  exists ws suffix, Forall (fun c => isspace c = true) ws
    /\ In suffix suffixes /\ x = ws ++ suffix.

Definition mem_size (v : str) : Prop :=
  exists ds, digits ds /\ (v = ds \/ exists x, spaces_suffix x /\ v = ds ++ x).

(** ** Package names *)
Definition too_long (max_package_name_length : nat) (name : str) : bool :=
  (max_package_name_length <? length name)%nat.

(** The state of [ImageSelectForm] before [packages] is cleaned. *)
Definition before_packages (image write_run_sh_file : outcome value) : form_state :=
  clean_field "write_run_sh_file" write_run_sh_file
    (clean_field "image" image initial_state).

(** ** CPU shares: the bounds as floats *)
Definition zero : spec_float := float_of_int 0.
Definition three : spec_float := float_of_int 3.

(** A submitted value is blank when the key is absent or the text empty. *)
Definition blank (submitted : option str) : Prop :=
  submitted = None \/ submitted = Some [].

(** A stand-in for [float(...)] on one ASCII digit, for the examples. *)
Definition float_of_digit (s : str) : option spec_float :=
  match s with
  | [c] =>
      if (ord "0" <=? c) && (c <=? ord "9")
      then Some (float_of_int (Z.of_N (c - ord "0")))
      else None
  | _ => None
  end.

End Spec.

Import Spec.

Module More.

(** The parts of [forms.py] the modules above leave out, and the words the
    statements about them use. *)

(** ** The rest of [SiteNamesForm]

    [models.Site], as far as the forms read it. *)
Record Site := { site_name : str }.

(** [SiteNamesForm.build_for_site(site)]: the data of the bound form. *)
Definition SiteNamesForm_build_for_site (site : Site) : gmap string str :=
  {[ "name"%string := site_name site ]}.

(** [full_clean] of a bound [SiteNamesForm]: one field, and the [clean] of
    [forms.Form], which changes nothing. *)
Definition SiteNamesForm_full_clean (data : gmap string str) : form_state :=
  clean_field "name"
    (outcome_map VStr (CharField_clean SiteNamesForm_name (data !! "name"%string)))
    initial_state.

(** ** The rest of [SiteResourceLimitsForm] *)
Definition SiteResourceLimitsForm_notes : CharField := CharField_init false None [].

Definition float_value (o : option spec_float) : value :=
  match o with Some x => VFloat x | None => VNone end.

(** [full_clean]: [cpus], [mem_limit], [notes], in the order of the class. *)
Definition SiteResourceLimitsForm_full_clean (float : str -> option spec_float)
    (data : gmap string str) : form_state :=
  clean_field "notes"
    (outcome_map VStr (CharField_clean SiteResourceLimitsForm_notes (data !! "notes"%string)))
    (clean_field "mem_limit"
       (outcome_map VStr
          (CharField_clean SiteResourceLimitsForm_mem_limit (data !! "mem_limit"%string)))
       (clean_field "cpus"
          (outcome_map float_value
             (FloatField_clean float SiteResourceLimitsForm_cpus (data !! "cpus"%string)))
          initial_state)).

(** ** Words for the statements *)

(** The errors a call raised. *)
Definition errors_of {A} (o : outcome A) : list ValidationError :=
  match o with Return _ => [] | Raise errs => errs end.

(** [[0-9a-zA-Z_\- .]], character by character. *)
Definition is_domain_char (c : N) : bool :=
  ((ord "0" <=? c) && (c <=? ord "9")) || ((ord "a" <=? c) && (c <=? ord "z"))
  || ((ord "A" <=? c) && (c <=? ord "Z"))
  || (c =? ord "_") || (c =? ord "-") || (c =? ord " ") || (c =? ord ".").

(** [sites.tjhsst.edu] or a name under it. *)
Definition under_sites (v : str) : bool := str_eqb v sites || endswith v dot_sites.

Definition nonspace (c : N) : Prop := isspace c = false.

(** A run of [w] inside [s]. *)
Definition infix_of (w s : str) : Prop := exists a b, s = a ++ w ++ b.

(** The [CharField]s the forms declare. *)
Definition source_char_fields : list CharField :=
  [SiteNamesForm_name; DomainForm_domain; ImageSelectForm_packages;
   SiteResourceLimitsForm_mem_limit; SiteResourceLimitsForm_notes].

(** The errors of the bounds of [cpus]. *)
Definition max_value_error : ValidationError :=
  {| message := "Ensure this value is less than or equal to %(limit_value)s.";
     code := Some "max_value"%string |}.

Definition min_value_error : ValidationError :=
  {| message := "Ensure this value is greater than or equal to %(limit_value)s.";
     code := Some "min_value"%string |}.

End More.

Import More.

(* ===================================================================== *)
(** * Lemmas *)
(* ===================================================================== *)

Module ReFacts.

Lemma nonempty_In {A} (l : list A) : l <> [] <-> exists x, In x l.
Proof.
  split.
  - destruct l as [|a l]; [congruence|]. intros _. exists a. now left.
  - intros [x Hx] ->. destruct Hx.
Qed.

Lemma rep_exact_spec f L (Hf : recognises f L) k :
  forall s s', In s' (rep_exact f k s) <->
    exists ws, length ws = k /\ Forall L ws /\ s = concat ws ++ s'.
Proof.
  induction k as [|k IH]; intros s s'; simpl.
  - split.
    + intros [<-|[]]. exists []. auto.
    + intros (ws & Hl & _ & ->). destruct ws; [now left | discriminate].
  - rewrite in_flat_map. split.
    + intros (s1 & H1 & H2). apply Hf in H1 as (w & Hw & ->).
      apply IH in H2 as (ws & Hl & Hws & ->).
      exists (w :: ws). simpl. rewrite <- app_assoc. auto.
    + intros (ws & Hl & Hws & ->). destruct ws as [|w ws]; [discriminate|].
      inversion Hws; subst. injection Hl as Hl.
      exists (concat ws ++ s'). split.
      * apply Hf. exists w. simpl. rewrite <- app_assoc. auto.
      * apply IH. eauto.
Qed.

Lemma rep_upto_spec f L (Hf : recognises f L) fuel :
  forall s s', In s' (rep_upto f fuel s) <->
    exists ws, (length ws <= fuel)%nat /\ Forall (nonempty_word L) ws
               /\ s = concat ws ++ s'.
Proof.
  induction fuel as [|k IH]; intros s s'.
  - simpl. split.
    + intros [<-|[]]. exists []. auto.
    + intros (ws & Hl & _ & ->). destruct ws; [now left | simpl in Hl; lia].
  - cbn [rep_upto In]. rewrite in_flat_map. split.
    + intros [<-|(s1 & H1 & H2)].
      * exists []. simpl. split; [lia|auto].
      * apply filter_In in H1 as [H1 Hlt]. apply Nat.ltb_lt in Hlt.
        apply Hf in H1 as (w & Hw & ->).
        apply IH in H2 as (ws & Hl & Hws & ->).
        exists (w :: ws). simpl. rewrite <- app_assoc. split; [lia|]. split; [|auto].
        constructor; [|auto]. split; [auto|]. intros ->. simpl in Hlt. lia.
    + intros (ws & Hl & Hws & ->). destruct ws as [|w ws]; [now left|right].
      inversion Hws as [|? ? [Hw Hne] Hws']; subst. simpl in Hl.
      exists (concat ws ++ s'). split.
      * apply filter_In. split.
        -- apply Hf. exists w. simpl. rewrite <- app_assoc. auto.
        -- apply Nat.ltb_lt. simpl. rewrite <- app_assoc, (length_app w).
           destruct w; [congruence | simpl; lia].
      * apply IH. exists ws. split; [lia|auto].
Qed.

Lemma nonempty_words_length (L : str -> Prop) ws :
  Forall (nonempty_word L) ws -> (length ws <= length (concat ws))%nat.
Proof.
  induction 1 as [|w ws [_ Hne] _ IH]; simpl; [lia|].
  rewrite length_app. destruct w; [congruence | simpl; lia].
Qed.

Theorem ends_lang r : pure r = true -> forall n, recognises (ends n r) (lang r).
Proof.
  induction r as [| c | | items | a | r1 IH1 r2 IH2 | lo hi r IH | r IH | r IH];
    simpl; intros Hp n s s'; try discriminate.
  - split; [intros [<-|[]]; exists []; auto | intros (w & -> & ->); now left].
  - destruct s as [|x t]; simpl.
    + split; [intros [] | intros (w & -> & [=])].
    + destruct (N.eqb_spec x c) as [->|Hne]; simpl.
      * split; [intros [<-|[]]; exists [c]; auto | intros (w & -> & [= ->]); now left].
      * split; [intros [] | intros (w & -> & [= ? ?]); congruence].
  - destruct s as [|x t]; simpl.
    + split; [intros [] | intros (w & (y & -> & _) & [=])].
    + destruct (N.eqb_spec x newline) as [->|Hne]; simpl.
      * split; [intros [] | intros (w & (y & -> & Hy) & [= <- _]); congruence].
      * split; [intros [<-|[]]; exists [x]; eauto
               | intros (w & (y & -> & Hy) & [= <- ->]); now left].
  - destruct s as [|x t]; simpl.
    + split; [intros [] | intros (w & (y & -> & _) & [=])].
    + destruct (in_set items x) eqn:E; simpl.
      * split; [intros [<-|[]]; exists [x]; eauto
               | intros (w & (y & -> & Hy) & [= <- ->]); now left].
      * split; [intros [] | intros (w & (y & -> & Hy) & [= <- _]); congruence].
  - apply andb_true_iff in Hp as [Hp1 Hp2]. rewrite in_flat_map. split.
    + intros (s1 & H1 & H2). apply (IH1 Hp1) in H1 as (u & Hu & ->).
      apply (IH2 Hp2) in H2 as (v & Hv & ->).
      exists (u ++ v). rewrite <- app_assoc. eauto 6.
    + intros (w & (u & v & -> & Hu & Hv) & ->). exists (v ++ s'). split.
      * apply (IH1 Hp1). exists u. rewrite <- app_assoc. auto.
      * apply (IH2 Hp2). eauto.
  - rewrite in_flat_map. split.
    + intros (s1 & H1 & H2).
      apply (rep_exact_spec _ _ (IH Hp n)) in H1 as (us & Hl & Hus & ->).
      apply (rep_upto_spec _ _ (IH Hp n)) in H2 as (vs & Hlv & Hvs & ->).
      exists (concat us ++ concat vs). rewrite <- app_assoc. split; [|auto].
      exists us, vs. repeat split; auto. destruct hi; simpl; [lia|auto].
    + intros (w & (us & vs & -> & Hl & Hus & Hvs & Hhi) & ->).
      exists (concat vs ++ s'). split.
      * apply (rep_exact_spec _ _ (IH Hp n)). exists us. rewrite <- app_assoc. auto.
      * apply (rep_upto_spec _ _ (IH Hp n)). exists vs. split; [|auto].
        destruct hi; simpl in *; [lia|].
        rewrite length_app. apply nonempty_words_length in Hvs. lia.
  - apply (IH Hp).
Qed.

Local Open Scope regex_scope.

Lemma search_anchored r s :
  search (AT AT_BEGINNING ⋅ r) s = true <-> ends (length s) r s <> [].
Proof.
  unfold search. rewrite existsb_exists. split.
  - intros (k & Hk & Hm). apply in_seq in Hk. unfold match_at in Hm.
    cbn [ends] in Hm. rewrite length_drop in Hm.
    destruct (Nat.eqb_spec (length s - k) (length s)) as [E|E].
    + assert (k = 0%nat) as -> by lia. rewrite drop_0 in Hm.
      simpl in Hm. rewrite app_nil_r in Hm.
      destruct (ends (length s) r s); [discriminate | congruence].
    + discriminate.
  - intros H. exists 0%nat. split; [apply in_seq; lia|].
    unfold match_at. cbn [ends]. rewrite drop_0, Nat.eqb_refl. simpl.
    rewrite app_nil_r. destruct (ends (length s) r s); congruence.
Qed.

Lemma in_ends_at_end n s s' :
  In s' (ends n (AT AT_END) s) <-> s' = s /\ (s = [] \/ s = [newline]).
Proof.
  simpl. destruct s as [|x [|y t]]; simpl.
  - intuition.
  - destruct (N.eqb_spec x newline) as [->|Hne]; simpl.
    + intuition.
    + split; [tauto|]. intros [_ [H|H]]; [discriminate | congruence].
  - split; [tauto|]. intros [_ [H|H]]; discriminate.
Qed.

Lemma ends_whole n r s :
  pure r = true -> (ends n (r ⋅ AT AT_END) s <> [] <-> whole (lang r) s).
Proof.
  intros Hp. rewrite nonempty_In.
  change (ends n (r ⋅ AT AT_END) s) with (flat_map (ends n (AT AT_END)) (ends n r s)).
  setoid_rewrite in_flat_map. split.
  - intros (x & s1 & H1 & H2). apply in_ends_at_end in H2 as [-> H2].
    apply (ends_lang r Hp) in H1 as (w & Hw & ->). exists w. split; [auto|].
    destruct H2 as [->| ->]; [left; now rewrite app_nil_r | now right].
  - intros (w & Hw & [->| ->]).
    + exists [], []. split; [|apply in_ends_at_end; auto].
      apply (ends_lang r Hp). exists w. now rewrite app_nil_r.
    + exists [newline], [newline]. split; [|apply in_ends_at_end; auto].
      apply (ends_lang r Hp). eauto.
Qed.

Lemma search_whole r s :
  pure r = true ->
  (search (AT AT_BEGINNING ⋅ r ⋅ AT AT_END) s = true <-> whole (lang r) s).
Proof. intros Hp. rewrite search_anchored. now apply ends_whole. Qed.

Lemma search_not_whole a b s :
  pure a = true -> pure b = true ->
  (search (AT AT_BEGINNING ⋅ ASSERT_NOT (a ⋅ AT AT_END) ⋅ b ⋅ AT AT_END) s = true
   <-> ~ whole (lang a) s /\ whole (lang b) s).
Proof.
  intros Ha Hb. rewrite search_anchored.
  rewrite <- (ends_whole (length s) a s Ha), <- (ends_whole (length s) b s Hb).
  change (ends (length s) (ASSERT_NOT (a ⋅ AT AT_END) ⋅ b ⋅ AT AT_END) s)
    with (flat_map (ends (length s) (b ⋅ AT AT_END))
            (match ends (length s) (a ⋅ AT AT_END) s with
             | [] => [s] | _ => [] end)).
  destruct (ends (length s) (a ⋅ AT AT_END) s) as [|x l]; simpl.
  - rewrite app_nil_r. tauto.
  - split; [congruence|]. intros [H _]. exfalso. apply H. discriminate.
Qed.

(** ** The languages of the repetition operators *)
Lemma lang_OPT r w : lang (OPT r) w <-> w = [] \/ lang r w.
Proof.
  unfold OPT. cbn [lang]. split.
  - intros (us & vs & -> & Hl & _ & Hvs & Hhi). simpl in Hhi.
    destruct us; [|discriminate]. destruct vs as [|v [|? ?]]; simpl in *; try lia.
    + now left.
    + right. rewrite app_nil_r. inversion Hvs as [|? ? [Hv _] _]. auto.
  - intros [->|H].
    + exists [], []. simpl. repeat split; auto.
    + destruct w as [|x w]; [exists [], []; simpl; repeat split; auto|].
      exists [], [x :: w]. simpl. rewrite app_nil_r. repeat split; auto.
      constructor; [|constructor]. split; [auto | discriminate].
Qed.

Lemma lang_STAR r w :
  lang (STAR r) w <-> exists vs, w = concat vs /\ Forall (nonempty_word (lang r)) vs.
Proof.
  unfold STAR. cbn [lang]. split.
  - intros (us & vs & -> & Hl & _ & Hvs & _). destruct us; [|discriminate]. eauto.
  - intros (vs & -> & Hvs). exists [], vs. simpl. repeat split; auto.
Qed.

Lemma lang_PLUS r w :
  lang (PLUS r) w <->
  exists u vs, w = u ++ concat vs /\ lang r u /\ Forall (nonempty_word (lang r)) vs.
Proof.
  unfold PLUS. cbn [lang]. split.
  - intros (us & vs & -> & Hl & Hus & Hvs & _).
    destruct us as [|u [|? ?]]; try discriminate.
    exists u, vs. simpl. rewrite app_nil_r. inversion Hus; auto.
  - intros (u & vs & -> & Hu & Hvs). exists [u], vs. simpl. rewrite app_nil_r.
    repeat split; auto.
Qed.

Lemma concat_ones (P : N -> Prop) w :
  (exists vs, w = concat vs /\ Forall (nonempty_word (one P)) vs) <-> Forall P w.
Proof.
  split.
  - intros (vs & -> & Hvs). induction Hvs as [|v vs [(x & -> & Hx) _] _ IH]; simpl; auto.
  - intros H. exists (map (fun x => [x]) w). split.
    + induction w; simpl; [auto | inversion H; subst; f_equal; auto].
    + induction H; simpl; constructor; auto.
      split; [exists x; auto | discriminate].
Qed.

Lemma lang_STAR_IN items w :
  lang (STAR (IN items)) w <-> Forall (fun x => in_set items x = true) w.
Proof. rewrite lang_STAR. apply (concat_ones (fun x => in_set items x = true)). Qed.

Lemma lang_PLUS_IN items w :
  lang (PLUS (IN items)) w <-> w <> [] /\ Forall (fun x => in_set items x = true) w.
Proof.
  rewrite lang_PLUS. split.
  - intros (u & vs & -> & (x & -> & Hx) & Hvs). split; [discriminate|].
    constructor; [auto|]. apply (concat_ones (fun x => in_set items x = true)). eauto.
  - intros [Hne H]. destruct w as [|x w]; [congruence|]. inversion H; subst.
    apply (concat_ones (fun x => in_set items x = true)) in H3 as (vs & -> & Hvs).
    exists [x], vs. repeat split; auto. exists x. auto.
Qed.

Lemma lang_STAR_ANY w : lang (STAR ANY) w <-> Forall (fun x => x <> newline) w.
Proof. rewrite lang_STAR. apply (concat_ones (fun x => x <> newline)). Qed.

Lemma lang_LITERALS s w : lang (LITERALS s) w <-> w = s.
Proof.
  revert w. induction s as [|c s IH]; intros w; simpl; [tauto|]. split.
  - intros (u & v & -> & -> & Hv). apply IH in Hv as ->. reflexivity.
  - intros ->. exists [c], s. repeat split; auto. now apply IH.
Qed.

Lemma pure_LITERALS s : pure (LITERALS s) = true.
Proof. induction s; simpl; auto. Qed.

End ReFacts.

Import ReFacts.

Module PyFacts.

Lemma str_eqb_eq a b : str_eqb a b = true <-> a = b.
Proof.
  revert b. induction a as [|x a IH]; intros [|y b]; simpl; try (split; congruence).
  rewrite andb_true_iff, N.eqb_eq, IH. split; [intros [-> ->]; auto | intros [= -> ->]; auto].
Qed.

Lemma endswith_spec s u : endswith s u = true <-> exists p, s = p ++ u.
Proof.
  unfold endswith. rewrite andb_true_iff, Nat.leb_le, str_eqb_eq. split.
  - intros [_ H]. remember (length s - length u)%nat as k.
    exists (take k s). rewrite <- H. symmetry. apply take_drop.
  - intros [p ->]. rewrite length_app. split; [lia|].
    replace (length p + length u - length u)%nat with (length p) by lia.
    apply drop_app_length.
Qed.

Lemma lstrip_head s c t : lstrip s = c :: t -> isspace c = false.
Proof.
  induction s as [|x s IH]; simpl; [discriminate|].
  destruct (isspace x) eqn:E; [auto | intros [= <- _]; auto].
Qed.

Lemma lstrip_nonspace c t : isspace c = false -> lstrip (c :: t) = c :: t.
Proof. intros H. simpl. now rewrite H. Qed.

Lemma lstrip_suffix s : exists ws, s = ws ++ lstrip s.
Proof.
  induction s as [|x s [ws IH]]; simpl; [now exists []|].
  destruct (isspace x); [exists (x :: ws); simpl; congruence | now exists []].
Qed.

Lemma lstrip_app p c u :
  isspace c = false -> lstrip (p ++ c :: u) = lstrip p ++ c :: u.
Proof.
  intros H. induction p as [|x p IH]; simpl; [now rewrite H|].
  destruct (isspace x); auto.
Qed.

Lemma rstrip_snoc y c : isspace c = false -> rstrip (y ++ [c]) = y ++ [c].
Proof.
  intros H. unfold rstrip. rewrite rev_app_distr. simpl. rewrite H.
  change (c :: rev y) with (rev [c] ++ rev y). rewrite <- rev_app_distr.
  apply rev_involutive.
Qed.

(** A suffix that starts and ends with a character that is not whitespace
    survives [strip]. *)
Lemma strip_app p a y c :
  isspace a = false -> isspace c = false ->
  strip (p ++ a :: y ++ [c]) = lstrip p ++ a :: y ++ [c].
Proof.
  intros Ha Hc. unfold strip. rewrite lstrip_app by assumption.
  change (lstrip p ++ a :: y ++ [c]) with (lstrip p ++ (a :: y) ++ [c]).
  rewrite app_assoc. now apply rstrip_snoc.
Qed.

Lemma strip_last_nonspace s y c : strip s = y ++ [c] -> isspace c = false.
Proof.
  unfold strip, rstrip. intros H. apply (f_equal (@rev N)) in H.
  rewrite rev_involutive, rev_app_distr in H. simpl in H.
  now apply lstrip_head in H.
Qed.

Lemma rstrip_prefix t : exists ws, t = rstrip t ++ ws.
Proof.
  unfold rstrip. destruct (lstrip_suffix (rev t)) as [ws H].
  exists (rev ws). rewrite <- rev_app_distr, <- H. symmetry. apply rev_involutive.
Qed.

Lemma lstrip_idem s : lstrip (lstrip s) = lstrip s.
Proof.
  destruct (lstrip s) as [|c t] eqn:E; [reflexivity|].
  apply lstrip_nonspace. now apply lstrip_head in E.
Qed.

Lemma strip_idem s : strip (strip s) = strip s.
Proof.
  unfold strip.
  assert (H : lstrip (rstrip (lstrip s)) = rstrip (lstrip s)).
  { destruct (rstrip_prefix (lstrip s)) as [ws Hws].
    destruct (rstrip (lstrip s)) as [|c t] eqn:E; [reflexivity|].
    apply lstrip_nonspace. simpl in Hws. now apply lstrip_head in Hws. }
  rewrite H. unfold rstrip at 1. unfold rstrip at 1.
  rewrite rev_involutive, lstrip_idem. reflexivity.
Qed.

Lemma strip_nil : strip [] = [].
Proof. reflexivity. Qed.

End PyFacts.

Import PyFacts.

Module DjangoFacts.

Lemma to_python_strip f d :
  strip_value f = true -> CharField_to_python f (Some d) = strip d.
Proof. intros H. unfold CharField_to_python. rewrite H. now destruct d. Qed.

Lemma run_validators_cases {A} (vs : list (validator A)) v :
  run_validators vs v = Return v
  \/ exists e errs, run_validators vs v = Raise (e :: errs).
Proof. unfold run_validators. destruct (omap (fun f => f v) vs); eauto. Qed.

Lemma CharField_clean_cases f value :
  CharField_clean f value = Return (CharField_to_python f value)
  \/ exists e errs, CharField_clean f value = Raise (e :: errs).
Proof.
  unfold CharField_clean. destruct (CharField_to_python f value) as [|c v].
  - destruct (required f); eauto.
  - apply run_validators_cases.
Qed.

Lemma field_errors_add_error name errs st :
  field_errors name (add_error name errs st) = (field_errors name st ++ errs)%list.
Proof. unfold field_errors, add_error. simpl. now rewrite lookup_insert_eq. Qed.

Lemma field_errors_add_error_ne name name' errs st :
  name <> name' ->
  field_errors name' (add_error name errs st) = field_errors name' st.
Proof. intros H. unfold field_errors, add_error. simpl. now rewrite lookup_insert_ne. Qed.

Lemma is_valid_add_error name errs st : is_valid (add_error name errs st) = false.
Proof.
  unfold is_valid, add_error. simpl. apply bool_decide_eq_false.
  apply insert_non_empty.
Qed.

Lemma cleaned_data_add_error name errs st :
  cleaned_data (add_error name errs st) !! name = None.
Proof. unfold add_error. simpl. apply lookup_delete_eq. Qed.

End DjangoFacts.

Import DjangoFacts.

Module DomainFacts.
Local Open Scope string_scope.

Lemma strip_reserved p : strip (p ++ reserved) = (lstrip p ++ reserved)%list.
Proof. apply (strip_app p (ord "t") (lit "jhsst.ed") (ord "u")); reflexivity. Qed.

(** What [_clean_fields] leaves for the [domain] key. *)
Lemma DomainForm_clean_fields_cases data :
  (DomainForm_clean_fields data
     = {| cleaned_data := {[ "domain" := VStr (CharField_to_python DomainForm_domain (data !! "domain")) ]};
          errors := ∅ |}
   /\ returns (CharField_clean DomainForm_domain (data !! "domain")) = true)
  \/ (exists e errs,
        CharField_clean DomainForm_domain (data !! "domain") = Raise (e :: errs)
        /\ DomainForm_clean_fields data = add_error "domain" (e :: errs) initial_state).
Proof.
  unfold DomainForm_clean_fields.
  destruct (CharField_clean_cases DomainForm_domain (data !! "domain"))
    as [E|(e & errs & E)]; rewrite E.
  - left. split; reflexivity.
  - right. exists e, errs. split; reflexivity.
Qed.

Lemma DomainForm_superuser data :
  DomainForm_full_clean true data = Ok (DomainForm_clean_fields data).
Proof. reflexivity. Qed.

Lemma DomainForm_clean_fields_valid data :
  is_valid (DomainForm_clean_fields data)
  = returns (CharField_clean DomainForm_domain (data !! "domain")).
Proof.
  destruct (DomainForm_clean_fields_cases data) as [[-> ->]|(e & errs & E & ->)].
  - reflexivity.
  - rewrite E. apply is_valid_add_error.
Qed.

Lemma DomainForm_nonsuperuser_reserved data d :
  data !! "domain" = Some d ->
  endswith d reserved = true ->
  exists st, DomainForm_full_clean false data = Ok st
    /\ field_errors "domain" st <> []
    /\ is_valid st = false
    /\ cleaned_data st !! "domain" = None
    /\ (domain_field_accepts d = true ->
        field_errors "domain" st = [administrators_only]).
Proof.
  intros Hd Hs. apply endswith_spec in Hs as [p ->].
  unfold DomainForm_full_clean, domain_field_accepts.
  destruct (DomainForm_clean_fields_cases data) as [[-> _]|(e & errs & E & ->)].
  - rewrite Hd, to_python_strip, strip_reserved by reflexivity.
    unfold DomainForm_clean. cbn [negb cleaned_data].
    rewrite lookup_singleton_eq.
    assert (endswith (lstrip p ++ reserved) (lit "tjhsst.edu") = true) as ->
      by (apply endswith_spec; eauto).
    eexists. split; [reflexivity|].
    rewrite field_errors_add_error, is_valid_add_error, cleaned_data_add_error.
    repeat split; first [discriminate | auto].
  - unfold DomainForm_clean. cbn [negb]. rewrite cleaned_data_add_error.
    eexists. split; [reflexivity|].
    rewrite field_errors_add_error, is_valid_add_error, cleaned_data_add_error.
    rewrite Hd in E. rewrite E. repeat split; first [discriminate | auto].
Qed.

End DomainFacts.

Import DomainFacts.

Module SitesFacts.
Local Open Scope string_scope.

Lemma strip_dot_sites p : strip (p ++ dot_sites) = (lstrip p ++ dot_sites)%list.
Proof. apply (strip_app p (ord ".") (lit "sites.tjhsst.ed") (ord "u")); reflexivity. Qed.

Lemma lang_sites_body_prefix a :
  Forall (fun x => x <> newline) a -> lang sites_body (a ++ dot_sites)%list.
Proof.
  intros Ha. exists (a ++ [ord "."])%list, sites. split; [now rewrite <- app_assoc|].
  split; [|now apply lang_LITERALS].
  apply lang_OPT. right. exists a, [ord "."]. split; [reflexivity|].
  split; [now apply lang_STAR_ANY | reflexivity].
Qed.

Lemma lang_sites_body_sites : lang sites_body sites.
Proof.
  exists [], sites. split; [reflexivity|]. split; [|now apply lang_LITERALS].
  apply lang_OPT. now left.
Qed.

Lemma domain_chars_not_newline x : in_set domain_chars x = true -> x <> newline.
Proof. intros H ->. discriminate H. Qed.

(** The regex of the field finds nothing in a name under [sites.tjhsst.edu]. *)
Lemma domain_regex_sites v :
  v = sites \/ (exists a, v = (a ++ dot_sites)%list) ->
  search domain_regex v = false.
Proof.
  intros Hv. apply not_true_iff_false. intros H.
  apply (search_not_whole sites_body (PLUS (IN domain_chars))) in H; [|reflexivity..].
  destruct H as [Hnot (w & Hw & Hww)]. apply lang_PLUS_IN in Hw as [_ Hw].
  assert (v = w) as <-.
  { destruct Hww as [->| ->]; [reflexivity|exfalso].
    destruct Hv as [Hv|[a Hv]].
    - change sites with (lit "sites.tjhsst.ed" ++ [ord "u"])%list in Hv.
      apply app_inj_tail in Hv as [_ Hv]. discriminate Hv.
    - change dot_sites with (lit ".sites.tjhsst.ed" ++ [ord "u"])%list in Hv.
      rewrite app_assoc in Hv. apply app_inj_tail in Hv as [_ Hv]. discriminate Hv. }
  apply Hnot. exists v. split; [|now left].
  destruct Hv as [->|[a ->]]; [apply lang_sites_body_sites|].
  apply lang_sites_body_prefix. apply Forall_app in Hw as [Ha _].
  eapply Forall_impl; [exact Ha|]. apply domain_chars_not_newline.
Qed.

Lemma sites_stripped d :
  d = sites \/ endswith d dot_sites = true ->
  strip d <> [] /\ (strip d = sites \/ exists a, strip d = (a ++ dot_sites)%list).
Proof.
  intros [->|H].
  - split; [discriminate | now left].
  - apply endswith_spec in H as [p ->]. rewrite strip_dot_sites. split.
    + intros E. apply (f_equal (@length N)) in E. rewrite length_app in E.
      simpl in E. lia.
    + right. eauto.
Qed.

Lemma DomainForm_sites_rejected su data d :
  data !! "domain" = Some d ->
  d = sites \/ endswith d dot_sites = true ->
  exists st, DomainForm_full_clean su data = Ok st
    /\ In domain_invalid (field_errors "domain" st)
    /\ is_valid st = false
    /\ cleaned_data st !! "domain" = None.
Proof.
  intros Hd Hs. apply sites_stripped in Hs as [Hne Hs].
  apply domain_regex_sites in Hs.
  assert (E : exists errs, CharField_clean DomainForm_domain (Some d)
                           = Raise (domain_invalid :: errs)).
  { unfold CharField_clean. rewrite to_python_strip by reflexivity.
    destruct (strip d) as [|c v] eqn:Ev; [congruence|].
    unfold run_validators. cbn [CharField_validators DomainForm_domain CharField_init
      validators min_length max_length app omap list_omap RegexValidator].
    unfold RegexValidator at 1. rewrite Hs. cbn [omap list_omap]. eauto. }
  destruct E as [errs E].
  unfold DomainForm_full_clean, DomainForm_clean_fields. rewrite Hd, E.
  cbn [outcome_map clean_field]. unfold DomainForm_clean.
  rewrite cleaned_data_add_error.
  exists (add_error "domain" (domain_invalid :: errs) initial_state).
  split; [now destruct su|].
  rewrite field_errors_add_error, is_valid_add_error, cleaned_data_add_error.
  repeat split. now left.
Qed.

End SitesFacts.

Import SitesFacts.

Module FieldFacts.

Lemma returns_run_validators {A} (vs : list (validator A)) v :
  returns (run_validators vs v) = true <-> Forall (fun g => g v = None) vs.
Proof.
  unfold run_validators. induction vs as [|g vs IH]; simpl.
  - split; auto.
  - destruct (g v) eqn:E; simpl.
    + split; [discriminate|]. intros H. inversion H; congruence.
    + rewrite IH. split; [auto|]. intros H. now inversion H.
Qed.

(** A [CharField] that strips accepts a submitted string when the stripped
    value is empty and the field is optional, or passes every validator. *)
Lemma CharField_accepts f submitted :
  strip_value f = true ->
  (returns (CharField_clean f (Some submitted)) = true <->
   (strip submitted = [] /\ required f = false)
   \/ (strip submitted <> [] /\
       Forall (fun g => g (strip submitted) = None) (CharField_validators f))).
Proof.
  intros Hs. unfold CharField_clean. rewrite to_python_strip by assumption.
  destruct (strip submitted) as [|c v] eqn:E.
  - destruct (required f); simpl; split; auto; intros [[_ H]|[H _]]; congruence.
  - rewrite returns_run_validators. split; [right; split; [discriminate | auto]|].
    intros [[H _]|[_ H]]; [discriminate | auto].
Qed.

Lemma MinLengthValidator_passes k v :
  MinLengthValidator k v = None <-> (k <= length v)%nat.
Proof.
  unfold MinLengthValidator. destruct (Nat.ltb_spec (length v) k); split;
    intros; try discriminate; auto; lia.
Qed.

Lemma MaxLengthValidator_passes k v :
  MaxLengthValidator k v = None <-> (length v <= k)%nat.
Proof.
  unfold MaxLengthValidator. destruct (Nat.ltb_spec k (length v)); split;
    intros; try discriminate; auto; lia.
Qed.

Lemma RegexValidator_passes r m v :
  RegexValidator r m v = None <-> search r v = true.
Proof. unfold RegexValidator. destruct (search r v); split; intros; auto; discriminate. Qed.

Lemma ProhibitNullCharactersValidator_passes v :
  ProhibitNullCharactersValidator v = None <-> ~ In 0 v.
Proof.
  unfold ProhibitNullCharactersValidator.
  destruct (existsb (N.eqb 0) v) eqn:E.
  - apply existsb_exists in E as (x & Hx & E). apply N.eqb_eq in E as <-.
    split; [discriminate | tauto].
  - split; [|auto]. intros _ H. apply not_true_iff_false in E. apply E.
    apply existsb_exists. exists 0. split; [auto | reflexivity].
Qed.

(** After [strip], [$] can only match at the very end. *)
Lemma whole_stripped (L : str -> Prop) submitted :
  whole L (strip submitted) <-> L (strip submitted).
Proof.
  split.
  - intros (w & Hw & [<-|H]); [auto|].
    apply strip_last_nonspace in H. discriminate H.
  - intros H. exists (strip submitted). auto.
Qed.

End FieldFacts.

Import FieldFacts.

Module NameFacts.
Local Open Scope string_scope.

Lemma in_set_lower_alnum c : in_set lower_alnum c = is_lower_alnum c.
Proof. unfold in_set, is_lower_alnum. simpl. now rewrite orb_false_r. Qed.

Lemma lang_group g : lang (PLUS (IN lower_alnum)) g <-> group g.
Proof.
  rewrite lang_PLUS_IN. unfold group.
  split; intros [H1 H2]; (split; [auto|]); (eapply Forall_impl; [exact H2|]);
    intros x; cbv beta; now rewrite in_set_lower_alnum.
Qed.

Lemma lang_dash_groups vs :
  Forall (nonempty_word (lang (SUBPATTERN (LITERAL dash ⋅ PLUS (IN lower_alnum))))) vs
  <-> exists gs, vs = map (cons dash) gs /\ Forall group gs.
Proof.
  split.
  - induction 1 as [|v vs [(a & b & -> & Ha & Hb) _] _ (gs & -> & Hgs)].
    + exists []. auto.
    + simpl in Ha. subst a. exists (b :: gs). split; [reflexivity|]. constructor; [|auto]. now apply lang_group.
  - intros (gs & -> & Hgs). induction Hgs as [|g gs Hg _ IH]; simpl; constructor; auto.
    split; [|discriminate]. exists [dash], g. repeat split. now apply lang_group.
Qed.

Lemma lang_name_body w : lang name_body w <-> dashed_groups w.
Proof.
  unfold name_body, dashed_groups. cbn [lang]. split.
  - intros (u & v & -> & Hu & Hv). apply lang_STAR in Hv as (vs & -> & Hvs).
    apply lang_dash_groups in Hvs as (gs & -> & Hgs).
    exists u, gs. repeat split; auto; now apply lang_group.
  - intros (g & gs & Hg & Hgs & ->). exists g, (concat (map (cons dash) gs)).
    split; [reflexivity|]. split; [now apply lang_group|].
    apply lang_STAR. exists (map (cons dash) gs). split; [reflexivity|].
    apply lang_dash_groups. eauto.
Qed.

Lemma dashed_groups_chars v :
  dashed_groups v -> Forall (fun c => is_lower_alnum c = true \/ c = dash) v.
Proof.
  intros (g & gs & [_ Hg] & Hgs & ->). apply Forall_app. split.
  - eapply Forall_impl; [exact Hg|]. simpl. auto.
  - induction Hgs as [|h gs [_ Hh] _ IH]; simpl; [constructor|].
    constructor; [now right|]. apply Forall_app. split; [|auto].
    eapply Forall_impl; [exact Hh|]. simpl. auto.
Qed.

Lemma dashed_groups_no_null v : dashed_groups v -> ~ In 0 v.
Proof.
  intros H Hin. apply dashed_groups_chars in H.
  rewrite Forall_forall in H. apply list_elem_of_In in Hin.
  destruct (H _ Hin) as [E|E]; discriminate E.
Qed.

(** The field [SiteNamesForm.name] on a submitted string. *)
Lemma name_accepts_iff submitted :
  name_accepts submitted = true <->
  (2 <= length (strip submitted) <= 32)%nat /\ dashed_groups (strip submitted).
Proof.
  unfold name_accepts. rewrite CharField_accepts by reflexivity.
  cbn [SiteNamesForm_name CharField_init required CharField_validators validators
         min_length max_length app].
  rewrite !Forall_cons, Forall_nil.
  rewrite MinLengthValidator_passes, MaxLengthValidator_passes,
    RegexValidator_passes, ProhibitNullCharactersValidator_passes.
  unfold name_regex. rewrite search_whole by reflexivity.
  rewrite whole_stripped, lang_name_body. split.
  - intros [[_ H]|(_ & H1 & H2 & H3 & _)]; [discriminate|]. auto.
  - intros [[H1 H2] H3]. right. split.
    + intros E. rewrite E in H1. simpl in H1. lia.
    + repeat split; auto. now apply dashed_groups_no_null.
Qed.

End NameFacts.

Import NameFacts.

Module DashFacts.

Lemma scan_run b g t :
  g <> [] -> Forall (fun c => is_lower_alnum c = true) g ->
  scan b (g ++ t) = scan true t.
Proof.
  intros Hne Hg. revert b. induction Hg as [|c g Hc Hg IH]; [congruence|].
  intros b. simpl. rewrite Hc. destruct g; [reflexivity|]. apply IH. discriminate.
Qed.

Lemma scan_groups_true gs :
  Forall group gs -> scan true (concat (map (cons dash) gs)) = true.
Proof.
  induction 1 as [|g gs [Hne Hg] _ IH]; [reflexivity|].
  simpl. now rewrite scan_run.
Qed.

Lemma dashed_groups_scan v : dashed_groups v -> scan false v = true.
Proof.
  intros (g & gs & [Hne Hg] & Hgs & ->). rewrite scan_run by assumption.
  now apply scan_groups_true.
Qed.

Lemma scan_dashed_groups v : forall b, scan b v = true ->
  exists g gs, Forall (fun c => is_lower_alnum c = true) g
    /\ (b = false -> g <> []) /\ Forall group gs
    /\ v = (g ++ concat (map (cons dash) gs))%list.
Proof.
  induction v as [|c t IH]; intros b H; simpl in H.
  - subst b. exists [], []. repeat split; auto; discriminate.
  - destruct (is_lower_alnum c) eqn:Ec.
    + apply IH in H as (g & gs & Hg & _ & Hgs & ->).
      exists (c :: g), gs. repeat split; auto; discriminate.
    + destruct (N.eqb_spec c dash) as [->|]; [|discriminate].
      apply andb_true_iff in H as [-> H].
      apply IH in H as (g & gs & Hg & Hne & Hgs & ->).
      exists [], (g :: gs). repeat split; auto; try discriminate.
      constructor; [split; auto | auto].
Qed.

Lemma dashed_groups_iff_scan v : dashed_groups v <-> scan false v = true.
Proof.
  split; [apply dashed_groups_scan|]. intros H.
  apply scan_dashed_groups in H as (g & gs & Hg & Hne & Hgs & ->).
  exists g, gs. repeat split; auto.
Qed.

Lemma scan_interior v : forall b,
  scan b v = true <->
  Forall name_char v
  /\ (b = false -> v <> [] /\ forall t, v <> dash :: t)
  /\ (forall t, v <> (t ++ [dash])%list)
  /\ (forall a b0, v <> (a ++ dash :: dash :: b0)%list).
Proof.
  induction v as [|c t IH]; intros b; simpl.
  - split.
    + intros ->. repeat split; auto; try discriminate.
      * intros y. destruct y; discriminate.
      * intros a b0. destruct a; discriminate.
    + intros (_ & H & _). destruct b; [reflexivity|]. now destruct (H eq_refl).
  - destruct (is_lower_alnum c) eqn:Ec; [|destruct (N.eqb_spec c dash) as [->|Hd]].
    + rewrite IH. split.
      * intros (Ht & _ & Hl & Hdd). repeat split; auto; try discriminate.
        -- constructor; [now left | auto].
        -- intros t' [= -> _]. discriminate Ec.
        -- intros [|y0 y] [= ]; subst; [discriminate Ec | now apply (Hl y)].
        -- intros [|a0 a] b0 [= ]; subst; [discriminate Ec | now apply (Hdd a b0)].
      * intros (Ht & _ & Hl & Hdd). inversion Ht; subst. repeat split; auto; try discriminate.
        -- intros y ->. now apply (Hl (c :: y)).
        -- intros a b0 ->. now apply (Hdd (c :: a) b0).
    + rewrite andb_true_iff, IH. split.
      * intros (-> & Ht & Hh & Hl & Hdd). destruct (Hh eq_refl) as [Hne Hh'].
        repeat split; auto; try discriminate.
        -- constructor; [now right | auto].
        -- intros [|y0 y] [= ]; subst; [congruence | now apply (Hl y)].
        -- intros [|a0 a] b0 [= ]; subst; [now apply (Hh' b0) | now apply (Hdd a b0)].
      * intros (Ht & Hh & Hl & Hdd). inversion Ht; subst.
        destruct b; [|now destruct (Hh eq_refl) as [_ H]; destruct (H t)].
        repeat split; auto.
        -- intros ->. now apply (Hl []).
        -- intros t' ->. now apply (Hdd [] t').
        -- intros y ->. now apply (Hl (dash :: y)).
        -- intros a b0 ->. now apply (Hdd (dash :: a) b0).
    + split; [discriminate|]. intros (Ht & _). inversion Ht as [|? ? [H|H] _]; subst; congruence.
Qed.

Theorem dashed_groups_iff_interior v : dashed_groups v <-> interior_dashes v.
Proof.
  rewrite dashed_groups_iff_scan, scan_interior. unfold interior_dashes. split.
  - intros (H1 & H2 & H3 & H4). destruct (H2 eq_refl). auto.
  - intros (H0 & H1 & H2 & H3 & H4). auto.
Qed.

End DashFacts.

Import DashFacts.

Module MemFacts.
Local Open Scope string_scope.

Lemma in_set_category k c : in_set [ITEM_CATEGORY k] c = in_category k c.
Proof. unfold in_set. simpl. apply orb_false_r. Qed.

Lemma lang_digits ds : lang (PLUS (IN [ITEM_CATEGORY CATEGORY_DIGIT])) ds <-> digits ds.
Proof.
  rewrite lang_PLUS_IN. unfold digits.
  split; intros [H1 H2]; (split; [auto|]); (eapply Forall_impl; [exact H2|]);
    intros x; cbv beta; now rewrite in_set_category.
Qed.

Lemma lang_spaces ws :
  lang (STAR (IN [ITEM_CATEGORY CATEGORY_SPACE])) ws
  <-> Forall (fun c => isspace c = true) ws.
Proof.
  rewrite lang_STAR_IN.
  split; intros H; (eapply Forall_impl; [exact H|]);
    intros x; cbv beta; now rewrite in_set_category.
Qed.

Lemma in_set_KMG k :
  in_set [ITEM_LITERAL (ord "K"); ITEM_LITERAL (ord "M"); ITEM_LITERAL (ord "G")] k = true
  <-> k = ord "K" \/ k = ord "M" \/ k = ord "G".
Proof.
  unfold in_set. simpl. rewrite !orb_true_iff, !N.eqb_eq. intuition discriminate.
Qed.

Lemma lang_mem_suffix x : lang mem_suffix x <-> spaces_suffix x.
Proof.
  unfold mem_suffix, spaces_suffix. cbn [lang]. split.
  - intros (ws & r1 & -> & Hws & b & r2 & -> & (k & -> & Hk) & c & e & -> & Hc & ->).
    apply lang_spaces in Hws. apply in_set_KMG in Hk. apply lang_OPT in Hc.
    exists ws. simpl in Hc.
    destruct Hc as [->| ->], Hk as [->|[->| ->]]; eexists; (split; [exact Hws|]);
      (split; [|reflexivity]); simpl; tauto.
  - intros (ws & suffix & Hws & Hin & ->). apply lang_spaces in Hws.
    exists ws, suffix. split; [reflexivity|]. split; [exact Hws|].
    simpl in Hin.
    destruct Hin as [<-|[<-|[<-|[<-|[<-|[<-|[]]]]]]];
      (eexists [_], _; split; [reflexivity|]; split;
       [eexists; split; [reflexivity|]; apply in_set_KMG; tauto|]);
      first [ exists [ord "i"], [ord "B"]; split; [reflexivity|];
              split; [apply lang_OPT; right; reflexivity | reflexivity]
            | exists [], [ord "B"]; split; [reflexivity|];
              split; [apply lang_OPT; left; reflexivity | reflexivity] ].
Qed.

Lemma lang_mem_body w : lang mem_body w <-> w = [] \/ mem_size w.
Proof.
  unfold mem_body. rewrite lang_OPT. cbn [lang]. unfold mem_size. split.
  - intros [->|(ds & x & -> & Hds & Hx)]; [now left | right].
    apply lang_digits in Hds. apply lang_OPT in Hx. exists ds. split; [auto|].
    destruct Hx as [->|Hx]; [left; apply app_nil_r|].
    right. exists x. split; [now apply lang_mem_suffix | reflexivity].
  - intros [->|(ds & Hds & H)]; [now left | right].
    apply lang_digits in Hds.
    destruct H as [->|(x & Hx & ->)].
    + exists ds, []. rewrite app_nil_r. repeat split; auto. apply lang_OPT. now left.
    + exists ds, x. repeat split; auto. apply lang_OPT. right. now apply lang_mem_suffix.
Qed.

Lemma isdecimal_not_null c : isdecimal c = true -> c <> 0.
Proof. intros H ->. discriminate H. Qed.

Lemma isspace_not_null c : isspace c = true -> c <> 0.
Proof. intros H ->. discriminate H. Qed.

Lemma mem_size_no_null v : mem_size v -> ~ In 0 v.
Proof.
  intros (ds & [_ Hds] & H) Hin.
  assert (Hd : ~ In 0 ds).
  { intros Hd. rewrite Forall_forall in Hds. apply list_elem_of_In in Hd.
    now apply Hds, isdecimal_not_null in Hd. }
  destruct H as [->|(x & (ws & suffix & Hws & Hs & ->) & ->)]; [auto|].
  apply in_app_or in Hin as [Hin|Hin]; [auto|].
  apply in_app_or in Hin as [Hin|Hin].
  - rewrite Forall_forall in Hws. apply list_elem_of_In in Hin.
    now apply Hws, isspace_not_null in Hin.
  - simpl in Hs.
    destruct Hs as [<-|[<-|[<-|[<-|[<-|[<-|[]]]]]]]; simpl in Hin;
      repeat (destruct Hin as [Hin|Hin]; [discriminate Hin|]); exact Hin.
Qed.

(** The field [SiteResourceLimitsForm.mem_limit] on a submitted string. *)
Lemma mem_limit_accepts_iff submitted :
  mem_limit_accepts submitted = true <->
  (length (strip submitted) <= 10)%nat
  /\ (strip submitted = [] \/ mem_size (strip submitted)).
Proof.
  unfold mem_limit_accepts. rewrite CharField_accepts by reflexivity.
  cbn [SiteResourceLimitsForm_mem_limit CharField_init required CharField_validators
         validators min_length max_length app].
  rewrite !Forall_cons, Forall_nil.
  rewrite MaxLengthValidator_passes, RegexValidator_passes,
    ProhibitNullCharactersValidator_passes.
  unfold mem_regex. rewrite search_whole by reflexivity.
  rewrite whole_stripped, lang_mem_body. split.
  - intros [[-> _]|(_ & H1 & H2 & _)]; [simpl; split; [lia | now left] | auto].
  - intros [H1 [H2|H2]]; [now left|].
    destruct (strip submitted) as [|c v] eqn:E; [now left | right].
    split; [discriminate|]. repeat split; auto. now apply mem_size_no_null.
Qed.

End MemFacts.

Import MemFacts.

Module PackagesFacts.
Local Open Scope string_scope.

Lemma field_errors_clean_field_ne name name' r st :
  name <> name' ->
  field_errors name' (clean_field name r st) = field_errors name' st.
Proof.
  intros H. destruct r; [reflexivity|]. now apply field_errors_add_error_ne.
Qed.

Lemma field_errors_before_packages image wr :
  field_errors "packages" (before_packages image wr) = [].
Proof.
  unfold before_packages. rewrite !field_errors_clean_field_ne by discriminate.
  reflexivity.
Qed.

Lemma packages_accepts submitted :
  returns (CharField_clean ImageSelectForm_packages (Some submitted)) = true
  <-> ~ In 0 (strip submitted).
Proof.
  rewrite CharField_accepts by reflexivity.
  cbn [ImageSelectForm_packages CharField_init required CharField_validators
         validators min_length max_length app].
  rewrite Forall_cons, Forall_nil, ProhibitNullCharactersValidator_passes. split.
  - intros [[-> _]|(_ & H & _)]; auto.
  - intros H. destruct (strip submitted); [left | right];
      repeat split; first [discriminate | auto].
Qed.

(** A submitted value with a null character: the field raises, [packages]
    is not in [cleaned_data], and [clean] fails on [cleaned_data["packages"]]. *)
Lemma ImageSelectForm_null max image wr data submitted :
  data !! "packages" = Some submitted ->
  In 0 (strip submitted) ->
  ImageSelectForm_full_clean max image wr data = Throw (KeyError "packages").
Proof.
  intros Hd Hin. unfold ImageSelectForm_full_clean, ImageSelectForm_clean_fields.
  rewrite Hd.
  destruct (CharField_clean_cases ImageSelectForm_packages (Some submitted))
    as [E|(e & errs & E)].
  - exfalso. apply (proj1 (packages_accepts submitted)); [|exact Hin]. now rewrite E.
  - rewrite E. cbn [outcome_map clean_field]. unfold ImageSelectForm_clean.
    now rewrite cleaned_data_add_error.
Qed.

(** Without null characters: the tokens of the stripped string decide. *)
Lemma ImageSelectForm_tokens max image wr data submitted :
  data !! "packages" = Some submitted ->
  ~ In 0 (strip submitted) ->
  exists st, ImageSelectForm_full_clean max image wr data = Ok st
    /\ (In package_too_long (field_errors "packages" st)
        <-> any (too_long max) (split (strip submitted)) = true).
Proof.
  intros Hd Hin. unfold ImageSelectForm_full_clean, ImageSelectForm_clean_fields.
  rewrite Hd. fold (before_packages image wr).
  destruct (CharField_clean_cases ImageSelectForm_packages (Some submitted))
    as [E|(e & errs & E)].
  - rewrite E, to_python_strip by reflexivity. cbn [outcome_map clean_field].
    unfold ImageSelectForm_clean. cbn [cleaned_data]. rewrite lookup_insert_eq.
    rewrite strip_idem. fold (too_long max).
    destruct (any (too_long max) (split (strip submitted))); eexists; (split; [reflexivity|]).
    + rewrite field_errors_add_error. split; [auto|]. intros _.
      apply in_or_app. right. now left.
    + unfold field_errors at 1. cbn [errors]. fold (field_errors "packages" (before_packages image wr)).
      rewrite field_errors_before_packages. split; [intros [] | discriminate].
  - exfalso. apply packages_accepts in Hin. rewrite E in Hin. discriminate.
Qed.

Lemma lstrip_spaces ws : Forall (fun c => isspace c = true) ws -> lstrip ws = [].
Proof. induction 1 as [|c ws Hc _ IH]; simpl; [auto | now rewrite Hc]. Qed.

Lemma strip_spaces ws : Forall (fun c => isspace c = true) ws -> strip ws = [].
Proof. intros H. unfold strip. now rewrite lstrip_spaces. Qed.

End PackagesFacts.

Import PackagesFacts.

Module FloatFacts.

(** The checks of the field on a float, against the bounds as IEEE
    comparisons. *)
Lemma bounds_iff v :
  isfinite v = true /\ MaxValueValidator three v = None /\ MinValueValidator zero v = None
  <-> SFleb zero v = true /\ SFleb v three = true.
Proof.
  unfold MaxValueValidator, MinValueValidator.
  destruct v as [s|s| |s m e].
  - destruct s; simpl; intuition.
  - destruct s; simpl; intuition discriminate.
  - simpl; intuition discriminate.
  - destruct s.
    + simpl. intuition discriminate.
    + change three with (S754_finite false 6755399441055744 (-51)).
      unfold SFltb, SFleb. simpl isfinite. cbn [SFcompare zero float_of_int].
      change (SFcompare (binary_normalize prec emax 0 0 false) (S754_finite false m e))
        with (Some Lt).
      change (SFcompare (S754_finite false m e) (binary_normalize prec emax 0 0 false))
        with (Some Gt).
      rewrite (Z.compare_antisym e (-51)).
      assert (Hm : Pos.compare_cont Eq m 6755399441055744
                   = CompOpp (Pos.compare_cont Eq 6755399441055744 m))
        by (symmetry; apply (Pos.compare_cont_antisym _ _ Eq)).
      rewrite Hm.
      destruct (e ?= -51)%Z; simpl;
        try destruct (Pos.compare_cont Eq 6755399441055744 m); simpl;
        intuition discriminate.
Qed.

Lemma below_or_above_rejected v :
  SFltb v zero = true \/ SFltb three v = true ->
  ~ (SFleb zero v = true /\ SFleb v three = true).
Proof.
  intros H Hb. apply bounds_iff in Hb as (_ & H3 & H0).
  unfold MaxValueValidator, MinValueValidator in *.
  destruct H as [H|H]; rewrite H in *; discriminate.
Qed.

Lemma cpus_accepts_iff float submitted :
  cpus_accepts float submitted = true <->
  submitted = None \/ submitted = Some []
  \/ exists s v, submitted = Some s /\ float s = Some v
       /\ SFleb zero v = true /\ SFleb v three = true.
Proof.
  unfold cpus_accepts, FloatField_clean.
  destruct submitted as [[|c s]|]; simpl f_required; cbn [returns]; [tauto| |tauto].
  split.
  - intros H. right. right. exists (c :: s).
    destruct (float (c :: s)) as [v|]; [|discriminate]. exists v.
    destruct (isfinite v) eqn:Ef; [|discriminate].
    split; [auto|]. split; [auto|]. apply bounds_iff. split; [auto|].
    assert (Hr : returns (run_validators (FloatField_validators SiteResourceLimitsForm_cpus) v) = true)
      by (destruct (run_validators _ v); [reflexivity | discriminate]).
    apply returns_run_validators in Hr.
    cbn [FloatField_validators SiteResourceLimitsForm_cpus max_value min_value app] in Hr.
    inversion Hr as [|? ? Hmax Hr']. inversion Hr' as [|? ? Hmin _]. auto.
  - intros [H|[H|(s' & v & [= <-] & Hf & Hb)]]; try discriminate.
    rewrite Hf. apply bounds_iff in Hb as (Ef & H3 & H0). rewrite Ef.
    assert (Hr : returns (run_validators (FloatField_validators SiteResourceLimitsForm_cpus) v) = true).
    { apply returns_run_validators.
      cbn [FloatField_validators SiteResourceLimitsForm_cpus max_value min_value app].
      repeat constructor; auto. }
    destruct (run_validators _ v); [reflexivity | discriminate].
Qed.

End FloatFacts.

Import FloatFacts.

Module DomainMore.
Local Open Scope string_scope.

Lemma is_valid_returned name v :
  is_valid (clean_field name (Return v) initial_state) = true.
Proof. reflexivity. Qed.

(** The whole outcome of [DomainForm]. *)
Lemma DomainForm_outcome su data :
  exists st, DomainForm_full_clean su data = Ok st
    /\ match CharField_clean DomainForm_domain (data !! "domain") with
       | Raise errs =>
           field_errors "domain" st = errs
           /\ cleaned_data st !! "domain" = None /\ is_valid st = false
       | Return v =>
           if negb su && endswith v reserved
           then field_errors "domain" st = [administrators_only]
                /\ cleaned_data st !! "domain" = None /\ is_valid st = false
           else field_errors "domain" st = []
                /\ cleaned_data st !! "domain" = Some (VStr v) /\ is_valid st = true
       end.
Proof.
  unfold DomainForm_full_clean, DomainForm_clean_fields.
  destruct (CharField_clean DomainForm_domain (data !! "domain")) as [v|errs];
    cbn [outcome_map clean_field]; unfold DomainForm_clean.
  - cbn [cleaned_data]. rewrite lookup_insert_eq.
    destruct su; cbn [negb andb].
    + eexists. split; [reflexivity|]. repeat split.
    + destruct (endswith v reserved) eqn:E.
      * change (lit "tjhsst.edu") with reserved. rewrite E.
        eexists. split; [reflexivity|].
        rewrite field_errors_add_error, is_valid_add_error, cleaned_data_add_error.
        repeat split.
      * change (lit "tjhsst.edu") with reserved. rewrite E.
        eexists. split; [reflexivity|]. repeat split.
  - rewrite cleaned_data_add_error.
    exists (add_error "domain" errs initial_state).
    split; [now destruct su|].
    rewrite field_errors_add_error, is_valid_add_error, cleaned_data_add_error.
    repeat split.
Qed.

End DomainMore.

Import DomainMore.

Module DomainChars.
Local Open Scope string_scope.

Lemma in_set_domain_chars c : in_set domain_chars c = is_domain_char c.
Proof.
  unfold in_set, is_domain_char. simpl. rewrite orb_false_r, !orb_assoc. reflexivity.
Qed.

Lemma domain_char_not_newline c : is_domain_char c = true -> c <> newline.
Proof. intros H ->. discriminate H. Qed.

Lemma domain_char_not_null c : is_domain_char c = true -> c <> 0%N.
Proof. intros H ->. discriminate H. Qed.

Lemma under_sites_spec v :
  under_sites v = true <-> v = sites \/ exists a, v = (a ++ dot_sites)%list.
Proof.
  unfold under_sites. now rewrite orb_true_iff, str_eqb_eq, endswith_spec.
Qed.

Lemma lang_sites_body_under v : lang sites_body v -> under_sites v = true.
Proof.
  intros (u & w & -> & Hu & Hw). apply lang_LITERALS in Hw as ->.
  apply under_sites_spec. apply lang_OPT in Hu as [->|(a & b & -> & _ & Hb)].
  - now left.
  - right. exists a. simpl in Hb. subst b. now rewrite <- app_assoc.
Qed.

Lemma under_sites_lang v :
  Forall (fun c => is_domain_char c = true) v ->
  under_sites v = true -> lang sites_body v.
Proof.
  intros Hv H. apply under_sites_spec in H as [->|[a ->]].
  - apply lang_sites_body_sites.
  - apply lang_sites_body_prefix. apply Forall_app in Hv as [Ha _].
    eapply Forall_impl; [exact Ha|]. apply domain_char_not_newline.
Qed.

(** What the regex of the field finds in a stripped value. *)
Lemma domain_regex_stripped submitted :
  search domain_regex (strip submitted) = true <->
  strip submitted <> []
  /\ Forall (fun c => is_domain_char c = true) (strip submitted)
  /\ under_sites (strip submitted) = false.
Proof.
  unfold domain_regex.
  rewrite (search_not_whole sites_body (PLUS (IN domain_chars))) by reflexivity.
  rewrite !whole_stripped, lang_PLUS_IN.
  assert (Hc : Forall (fun x => in_set domain_chars x = true) (strip submitted)
               <-> Forall (fun c => is_domain_char c = true) (strip submitted)).
  { split; intros H; (eapply Forall_impl; [exact H|]); intros x; cbv beta;
      now rewrite in_set_domain_chars. }
  rewrite Hc. split.
  - intros (Hn & Hne & Hv). repeat split; auto.
    apply not_true_iff_false. intros H. apply Hn. now apply under_sites_lang.
  - intros (Hne & Hv & Hu). repeat split; auto.
    intros H. apply lang_sites_body_under in H. congruence.
Qed.

Lemma domain_field_accepts_iff submitted :
  domain_field_accepts submitted = true <->
  strip submitted = []
  \/ ((length (strip submitted) <= 255)%nat
      /\ Forall (fun c => is_domain_char c = true) (strip submitted)
      /\ under_sites (strip submitted) = false).
Proof.
  unfold domain_field_accepts. rewrite CharField_accepts by reflexivity.
  cbn [DomainForm_domain CharField_init required CharField_validators validators
         min_length max_length app].
  rewrite !Forall_cons, Forall_nil.
  rewrite MaxLengthValidator_passes, RegexValidator_passes,
    ProhibitNullCharactersValidator_passes, domain_regex_stripped.
  split.
  - intros [[H _]|(_ & (_ & Hv & Hu) & Hl & _)]; [now left | right; auto].
  - intros [H|(Hl & Hv & Hu)]; [now left|].
    destruct (strip submitted) as [|c v] eqn:E; [now left | right].
    split; [discriminate|]. repeat split; auto; try discriminate.
    intros Hin. rewrite Forall_forall in Hv. apply list_elem_of_In in Hin.
    now apply Hv, domain_char_not_null in Hin.
Qed.

(** A blank submission cleans to the empty string. *)
Lemma CharField_clean_blank f submitted :
  strip_value f = true -> required f = false ->
  submitted = None
  \/ (exists ws, submitted = Some ws /\ Forall (fun c => isspace c = true) ws) ->
  CharField_clean f submitted = Return [].
Proof.
  intros Hs Hr [->|(ws & -> & Hws)]; unfold CharField_clean.
  - simpl. now rewrite Hr.
  - rewrite to_python_strip, strip_spaces by assumption. now rewrite Hr.
Qed.

Lemma DomainForm_blank su data :
  data !! "domain" = None
  \/ (exists ws, data !! "domain" = Some ws /\ Forall (fun c => isspace c = true) ws) ->
  exists st, DomainForm_full_clean su data = Ok st
    /\ is_valid st = true
    /\ cleaned_data st !! "domain" = Some (VStr []).
Proof.
  intros H. destruct (DomainForm_outcome su data) as (st & Hst & Ho).
  rewrite (CharField_clean_blank DomainForm_domain) in Ho by (reflexivity || exact H).
  exists st. split; [exact Hst|].
  replace (negb su && endswith [] reserved) with false in Ho by now destruct su.
  tauto.
Qed.

Lemma DomainForm_superuser_widens data st :
  DomainForm_full_clean false data = Ok st ->
  is_valid st = true ->
  DomainForm_full_clean true data = Ok st.
Proof.
  intros H Hv. rewrite DomainForm_superuser. revert H.
  unfold DomainForm_full_clean, DomainForm_clean. cbn [negb].
  destruct (cleaned_data (DomainForm_clean_fields data) !! "domain") as [[|d| |]|];
    try discriminate; try (intros [= <-]; reflexivity).
  destruct (endswith d (lit "tjhsst.edu")); intros [= <-]; [|reflexivity].
  rewrite is_valid_add_error in Hv. discriminate.
Qed.

Lemma lower_alnum_domain_char c : is_lower_alnum c = true -> is_domain_char c = true.
Proof.
  unfold is_lower_alnum, is_domain_char. intros H.
  apply orb_true_iff in H as [H|H]; rewrite H; simpl; rewrite ?orb_true_r; reflexivity.
Qed.

Lemma lower_alnum_nonspace c : is_lower_alnum c = true -> isspace c = false.
Proof.
  unfold is_lower_alnum. rewrite orb_true_iff, !andb_true_iff, !N.leb_le.
  change (ord "a") with 97%N. change (ord "z") with 122%N.
  change (ord "0") with 48%N. change (ord "9") with 57%N.
  intros H. unfold isspace.
  repeat (apply orb_false_intro);
    rewrite ?andb_false_iff, ?N.leb_gt, ?N.eqb_neq; lia.
Qed.

(** The domain the site gets by itself, [<name>.sites.tjhsst.edu], submitted
    as a custom domain. *)
Lemma DomainForm_generated_domain su data n :
  name_accepts n = true ->
  data !! "domain" = Some (strip n ++ dot_sites)%list ->
  exists st, DomainForm_full_clean su data = Ok st
    /\ field_errors "domain" st = [domain_invalid]
    /\ is_valid st = false.
Proof.
  intros Hn Hd. apply name_accepts_iff in Hn as [[_ Hl] Hg].
  assert (Hstrip : strip (strip n ++ dot_sites) = (strip n ++ dot_sites)%list).
  { rewrite strip_dot_sites. f_equal.
    destruct Hg as (g & gs & [Hne Hgc] & _ & E). rewrite E.
    destruct Hgc as [|c g Hc _]; [congruence|]. simpl.
    now rewrite (lower_alnum_nonspace c Hc). }
  assert (E : CharField_clean DomainForm_domain (Some (strip n ++ dot_sites)%list)
              = Raise [domain_invalid]).
  { unfold CharField_clean. rewrite to_python_strip, Hstrip by reflexivity.
    destruct (strip n ++ dot_sites)%list as [|c v] eqn:Ev.
    { apply (f_equal (@length N)) in Ev. rewrite length_app in Ev. simpl in Ev. lia. }
    rewrite <- Ev. unfold run_validators.
    cbn [CharField_validators DomainForm_domain CharField_init validators
           min_length max_length app omap list_omap].
    unfold RegexValidator at 1.
    rewrite (domain_regex_sites (strip n ++ dot_sites)) by (right; eauto).
    rewrite (proj2 (MaxLengthValidator_passes 255 (strip n ++ dot_sites))).
    2:{ rewrite length_app. simpl. lia. }
    rewrite (proj2 (ProhibitNullCharactersValidator_passes (strip n ++ dot_sites))).
    2:{ intros Hin. apply in_app_or in Hin as [Hin|Hin].
        - now apply (dashed_groups_no_null _ Hg).
        - simpl in Hin. repeat (destruct Hin as [Hin|Hin]; [discriminate Hin|]).
          exact Hin. }
    reflexivity. }
  destruct (DomainForm_outcome su data) as (st & Hst & Ho).
  rewrite Hd, E in Ho. exists st. tauto.
Qed.

End DomainChars.

Import DomainChars.

Module CleanFacts.
Local Open Scope string_scope.

Lemma CharField_clean_returns f submitted v :
  CharField_clean f submitted = Return v -> v = CharField_to_python f submitted.
Proof.
  destruct (CharField_clean_cases f submitted) as [E|(e & errs & E)];
    rewrite E; [now intros [= <-] | discriminate].
Qed.

Lemma to_python_idem f s :
  CharField_to_python f (Some (CharField_to_python f (Some s)))
  = CharField_to_python f (Some s).
Proof.
  unfold CharField_to_python. destruct s as [|c s]; [reflexivity|].
  destruct (strip_value f).
  - destruct (strip (c :: s)) as [|c' s'] eqn:Es; [reflexivity|].
    rewrite <- Es. apply strip_idem.
  - reflexivity.
Qed.

(** Cleaning a cleaned value gives it back. *)
Lemma CharField_clean_idem f s v :
  CharField_clean f (Some s) = Return v -> CharField_clean f (Some v) = Return v.
Proof.
  intros H. pose proof (CharField_clean_returns _ _ _ H) as ->.
  unfold CharField_clean in *. rewrite to_python_idem. exact H.
Qed.

Lemma SiteNamesForm_outcome data :
  let st := SiteNamesForm_full_clean data in
  match CharField_clean SiteNamesForm_name (data !! "name") with
  | Return v =>
      is_valid st = true /\ cleaned_data st !! "name" = Some (VStr v)
      /\ field_errors "name" st = []
  | Raise errs =>
      is_valid st = false /\ cleaned_data st !! "name" = None
      /\ field_errors "name" st = errs
  end.
Proof.
  unfold SiteNamesForm_full_clean.
  destruct (CharField_clean SiteNamesForm_name (data !! "name")) as [v|errs];
    cbn [outcome_map clean_field].
  - repeat split.
  - rewrite field_errors_add_error, is_valid_add_error, cleaned_data_add_error.
    repeat split.
Qed.

Lemma SiteNamesForm_round_trip data s :
  data !! "name" = Some s ->
  is_valid (SiteNamesForm_full_clean data) = true ->
  cleaned_data (SiteNamesForm_full_clean data) !! "name" = Some (VStr (strip s))
  /\ (let st := SiteNamesForm_full_clean
                  (SiteNamesForm_build_for_site {| site_name := strip s |}) in
      is_valid st = true /\ cleaned_data st !! "name" = Some (VStr (strip s))).
Proof.
  intros Hd Hv. pose proof (SiteNamesForm_outcome data) as Ho. rewrite Hd in Ho.
  destruct (CharField_clean SiteNamesForm_name (Some s)) as [v|errs] eqn:E.
  2:{ cbv zeta in Ho. destruct Ho as [Ho _]. congruence. }
  pose proof (CharField_clean_returns _ _ _ E) as Hvs.
  rewrite to_python_strip in Hvs by reflexivity. subst v.
  cbv zeta in Ho. split; [tauto|].
  pose proof (SiteNamesForm_outcome
                (SiteNamesForm_build_for_site {| site_name := strip s |})) as Ho'.
  unfold SiteNamesForm_build_for_site in Ho' at 2. cbn [site_name] in Ho'.
  rewrite lookup_singleton_eq, (CharField_clean_idem _ _ _ E) in Ho'.
  cbv zeta in *. tauto.
Qed.

Lemma SiteNamesForm_build_for_site_valid site :
  is_valid (SiteNamesForm_full_clean (SiteNamesForm_build_for_site site))
  = name_accepts (site_name site).
Proof.
  pose proof (SiteNamesForm_outcome (SiteNamesForm_build_for_site site)) as Ho.
  unfold SiteNamesForm_build_for_site in Ho at 2.
  rewrite lookup_singleton_eq in Ho. unfold name_accepts.
  destruct (CharField_clean SiteNamesForm_name (Some (site_name site)));
    cbv zeta in Ho; simpl; tauto.
Qed.

Lemma SiteNamesForm_blank data :
  data !! "name" = None
  \/ (exists ws, data !! "name" = Some ws /\ Forall (fun c => isspace c = true) ws) ->
  field_errors "name" (SiteNamesForm_full_clean data) = [required_error]
  /\ is_valid (SiteNamesForm_full_clean data) = false.
Proof.
  intros H. pose proof (SiteNamesForm_outcome data) as Ho.
  assert (E : CharField_clean SiteNamesForm_name (data !! "name") = Raise [required_error]).
  { destruct H as [->|(ws & -> & Hws)]; unfold CharField_clean; [reflexivity|].
    rewrite to_python_strip, strip_spaces by (reflexivity || assumption). reflexivity. }
  rewrite E in Ho. cbv zeta in Ho. tauto.
Qed.

End CleanFacts.

Import CleanFacts.

Module CpusFacts.
Local Open Scope string_scope.

Lemma above_not_below v : SFltb three v = true -> SFltb v zero = false.
Proof.
  change three with (S754_finite false 6755399441055744 (-51)).
  change zero with (S754_zero false).
  destruct v as [s|s| |s m e]; try destruct s; simpl; auto; discriminate.
Qed.

(** What [cpus] does with a submitted text that converts to a float. *)
Lemma cpus_clean_float float s v :
  s <> [] -> float s = Some v ->
  FloatField_clean float SiteResourceLimitsForm_cpus (Some s)
  = if negb (isfinite v) then Raise [invalid_number]
    else if SFltb three v then Raise [max_value_error]
    else if SFltb v zero then Raise [min_value_error]
    else Return (Some v).
Proof.
  intros Hne Hf. unfold FloatField_clean. destruct s as [|c s]; [congruence|].
  rewrite Hf. destruct (isfinite v); cbn [negb]; [|reflexivity].
  unfold run_validators.
  cbn [FloatField_validators SiteResourceLimitsForm_cpus max_value min_value app
         omap list_omap].
  unfold MaxValueValidator at 1. fold three.
  destruct (SFltb three v) eqn:E3.
  - unfold MinValueValidator. fold zero. rewrite (above_not_below v E3). reflexivity.
  - unfold MinValueValidator. fold zero. destruct (SFltb v zero); reflexivity.
Qed.

Lemma cpus_clean_not_a_number float s :
  s <> [] -> float s = None ->
  FloatField_clean float SiteResourceLimitsForm_cpus (Some s) = Raise [invalid_number].
Proof.
  intros Hne Hf. unfold FloatField_clean. destruct s; [congruence|]. now rewrite Hf.
Qed.

Lemma cpus_one_error float submitted errs :
  FloatField_clean float SiteResourceLimitsForm_cpus submitted = Raise errs ->
  errs = [invalid_number] \/ errs = [max_value_error] \/ errs = [min_value_error].
Proof.
  destruct submitted as [[|c s]|]; try discriminate.
  destruct (float (c :: s)) as [v|] eqn:Ef.
  - rewrite (cpus_clean_float float (c :: s) v) by (discriminate || assumption).
    destruct (negb (isfinite v)); [intros [= <-]; auto|].
    destruct (SFltb three v); [intros [= <-]; auto|].
    destruct (SFltb v zero); [intros [= <-]; auto | discriminate].
  - rewrite cpus_clean_not_a_number by (discriminate || assumption).
    intros [= <-]. auto.
Qed.

End CpusFacts.

Import CpusFacts.

Module SplitFacts.

Lemma split_from_spaces ws :
  Forall (fun c => isspace c = true) ws -> split_from [] ws = [].
Proof. induction 1 as [|c ws Hc _ IH]; simpl; [auto | now rewrite Hc]. Qed.

Lemma split_from_spaces_l ws s :
  Forall (fun c => isspace c = true) ws -> split_from [] (ws ++ s) = split_from [] s.
Proof. induction 1 as [|c ws Hc _ IH]; simpl; [auto | now rewrite Hc]. Qed.

Lemma split_from_spaces_r ws s :
  Forall (fun c => isspace c = true) ws ->
  forall word, split_from word (s ++ ws) = split_from word s.
Proof.
  intros Hws. induction s as [|c s IH]; intros word.
  - simpl. destruct Hws as [|x ws Hx Hws]; [reflexivity|]. simpl. rewrite Hx.
    rewrite split_from_spaces by assumption. now destruct word.
  - simpl. destruct (isspace c); [|apply IH]. rewrite IH. now destruct word.
Qed.

Lemma lstrip_spaces_prefix s :
  exists ws, Forall (fun c => isspace c = true) ws /\ s = ws ++ lstrip s.
Proof.
  induction s as [|x s (ws & Hws & IH)]; simpl; [now exists []|].
  destruct (isspace x) eqn:E; [|now exists []].
  exists (x :: ws). split; [now constructor | simpl; congruence].
Qed.

Lemma rstrip_spaces_suffix t :
  exists ws, Forall (fun c => isspace c = true) ws /\ t = rstrip t ++ ws.
Proof.
  unfold rstrip. destruct (lstrip_spaces_prefix (rev t)) as (ws & Hws & H).
  exists (rev ws). split; [now apply Forall_rev|].
  rewrite <- rev_app_distr, <- H. symmetry. apply rev_involutive.
Qed.

(** [strip] before [split] changes nothing. *)
Lemma split_strip s : split (strip s) = split s.
Proof.
  unfold split, strip.
  destruct (lstrip_spaces_prefix s) as (ws1 & H1 & E1).
  destruct (rstrip_spaces_suffix (lstrip s)) as (ws2 & H2 & E2).
  rewrite E1 at 2. rewrite split_from_spaces_l by assumption.
  rewrite E2 at 2. now rewrite split_from_spaces_r.
Qed.

Lemma split_from_nonspace s : forall word,
  Forall nonspace word ->
  Forall (fun t => t <> [] /\ Forall nonspace t) (split_from word s).
Proof.
  induction s as [|c s IH]; intros word Hw; simpl.
  - destruct word as [|x word]; constructor; [|constructor].
    split; [|now apply Forall_rev].
    intros E. apply (f_equal (@length N)) in E. rewrite length_rev in E. discriminate.
  - destruct (isspace c) eqn:Ec.
    + destruct word as [|x word]; [apply IH; constructor|].
      constructor; [|apply IH; constructor].
      split; [|now apply Forall_rev].
      intros E. apply (f_equal (@length N)) in E. rewrite length_rev in E. discriminate.
    + apply IH. now constructor.
Qed.

Lemma split_from_infix s : forall word t,
  In t (split_from word s) -> infix_of t (rev word ++ s).
Proof.
  induction s as [|c s IH]; intros word t; simpl.
  - destruct word as [|x word]; [intros []|]. intros [<-|[]].
    exists [], []. now rewrite app_nil_r.
  - destruct (isspace c).
    + destruct word as [|x word].
      * intros H. apply IH in H as (a & b & E). simpl in E.
        exists (c :: a), b. simpl. now rewrite E.
      * intros [<-|H].
        -- exists [], (c :: s). reflexivity.
        -- apply IH in H as (a & b & E). simpl in E.
           exists (rev (x :: word) ++ c :: a), b. rewrite E, <- !app_assoc. reflexivity.
    + intros H. apply IH in H as (a & b & E). exists a, b. rewrite <- E.
      simpl. now rewrite <- app_assoc.
Qed.

Lemma infix_split (x y a w b : str) c :
  x ++ c :: y = a ++ w ++ b -> w <> [] -> ~ In c w ->
  (exists b', x = a ++ w ++ b') \/ (exists a', y = a' ++ w ++ b).
Proof.
  intros E Hne Hc. apply app_eq_app in E as [l [[-> E]|[-> E]]].
  - apply app_eq_app in E as [l2 [[-> E]|[-> E]]].
    + destruct l2 as [|c' l2].
      * left. exists []. now rewrite !app_nil_r.
      * injection E as <- _. exfalso. apply Hc. apply in_or_app. right. now left.
    + left. exists l2. reflexivity.
  - destruct l as [|c' l].
    + destruct w as [|c' w]; [congruence|]. injection E as <- _.
      exfalso. apply Hc. now left.
    + injection E as <- ->. right. eauto.
Qed.

Lemma split_from_covers s : forall word w,
  Forall nonspace word -> Forall nonspace w -> w <> [] ->
  infix_of w (rev word ++ s) ->
  exists t, In t (split_from word s) /\ (length w <= length t)%nat.
Proof.
  induction s as [|c s IH]; intros word w Hword Hw Hne (a & b & E); simpl.
  - rewrite app_nil_r in E. destruct word as [|x word].
    + simpl in E. destruct a; [destruct w; [congruence | discriminate] | discriminate].
    + exists (rev (x :: word)). split; [now left|].
      rewrite E, !length_app. lia.
  - destruct (isspace c) eqn:Ec.
    + assert (Hc : ~ In c w).
      { intros Hin. rewrite Forall_forall in Hw. apply list_elem_of_In in Hin.
        apply Hw in Hin. unfold nonspace in Hin. congruence. }
      destruct (infix_split _ _ _ _ _ _ E Hne Hc) as [[b' E']|[a' E']].
      * destruct word as [|x word].
        { simpl in E'. destruct a; [destruct w; [congruence | discriminate] | discriminate]. }
        exists (rev (x :: word)). split; [now left|]. rewrite E', !length_app. lia.
      * destruct (IH [] w (@List.Forall_nil N nonspace) Hw Hne) as (t & Ht & Hl).
        { exists a', b. exact E'. }
        exists t. split; [|exact Hl]. destruct word; [exact Ht | now right].
    + apply (IH (c :: word) w);
        [apply List.Forall_cons; [exact Ec | exact Hword] | exact Hw | exact Hne |].
      exists a, b. rewrite <- E. simpl. now rewrite <- app_assoc.
Qed.

(** A token is too long exactly when the string has a run of more than [max]
    characters without whitespace. *)
Lemma any_too_long_iff max s :
  any (too_long max) (split s) = true <->
  exists w, infix_of w s /\ Forall nonspace w /\ (max < length w)%nat.
Proof.
  unfold any, split. rewrite existsb_exists. split.
  - intros (t & Ht & Hl). apply Nat.ltb_lt in Hl. exists t. split; [|split; [|exact Hl]].
    + now apply (split_from_infix s []).
    + pose proof (split_from_nonspace s [] (@List.Forall_nil N nonspace)) as H.
      rewrite Forall_forall in H. apply list_elem_of_In in Ht. now apply H in Ht.
  - intros (w & Hi & Hw & Hl).
    destruct (split_from_covers s [] w (@List.Forall_nil N nonspace) Hw) as (t & Ht & Hlt).
    + intros ->. simpl in Hl. lia.
    + exact Hi.
    + exists t. split; [exact Ht|]. apply Nat.ltb_lt. lia.
Qed.

End SplitFacts.

Import SplitFacts.

Module FormFacts.
Local Open Scope string_scope.

Lemma is_valid_clean_field_raise name errs st :
  is_valid (clean_field name (Raise errs) st) = false.
Proof. apply is_valid_add_error. Qed.

Lemma is_valid_clean_field_return name v st :
  is_valid (clean_field name (Return v) st) = is_valid st.
Proof. reflexivity. Qed.

Lemma is_valid_clean_field name o st :
  is_valid (clean_field name o st) = returns o && is_valid st.
Proof. destruct o; [reflexivity | apply is_valid_add_error]. Qed.

Lemma field_errors_clean_field name o st :
  field_errors name (clean_field name o st) = (field_errors name st ++ errors_of o)%list.
Proof.
  destruct o; simpl; [now rewrite app_nil_r | apply field_errors_add_error].
Qed.

Lemma cleaned_data_clean_field name o st :
  cleaned_data (clean_field name o st) !! name
  = match o with Return v => Some v | Raise _ => None end.
Proof.
  destruct o; simpl; [apply lookup_insert_eq | apply lookup_delete_eq].
Qed.

Lemma cleaned_data_clean_field_ne name name' o st :
  name <> name' ->
  cleaned_data (clean_field name o st) !! name' = cleaned_data st !! name'.
Proof.
  intros H. destruct o; simpl; [now apply lookup_insert_ne | now apply lookup_delete_ne].
Qed.

Lemma returns_outcome_map {A B} (g : A -> B) o :
  returns (outcome_map g o) = returns o.
Proof. now destruct o. Qed.

Lemma errors_of_outcome_map {A B} (g : A -> B) o :
  errors_of (outcome_map g o) = errors_of o.
Proof. now destruct o. Qed.

(** [SiteResourceLimitsForm]: the three fields are judged one by one. *)
Lemma SiteResourceLimitsForm_outcome float data :
  let st := SiteResourceLimitsForm_full_clean float data in
  let cpus := FloatField_clean float SiteResourceLimitsForm_cpus (data !! "cpus") in
  let mem := CharField_clean SiteResourceLimitsForm_mem_limit (data !! "mem_limit") in
  let notes := CharField_clean SiteResourceLimitsForm_notes (data !! "notes") in
  is_valid st = returns cpus && returns mem && returns notes
  /\ field_errors "cpus" st = errors_of cpus
  /\ field_errors "mem_limit" st = errors_of mem
  /\ field_errors "notes" st = errors_of notes.
Proof.
  cbv zeta. unfold SiteResourceLimitsForm_full_clean. split; [|split; [|split]].
  - rewrite !is_valid_clean_field, !returns_outcome_map.
    change (is_valid initial_state) with true.
    destruct (returns _), (returns _), (returns _); reflexivity.
  - rewrite (field_errors_clean_field_ne "notes" "cpus") by discriminate.
    rewrite (field_errors_clean_field_ne "mem_limit" "cpus") by discriminate.
    now rewrite field_errors_clean_field, errors_of_outcome_map.
  - rewrite (field_errors_clean_field_ne "notes" "mem_limit") by discriminate.
    rewrite field_errors_clean_field, errors_of_outcome_map.
    now rewrite (field_errors_clean_field_ne "cpus" "mem_limit") by discriminate.
  - rewrite field_errors_clean_field, errors_of_outcome_map.
    rewrite (field_errors_clean_field_ne "mem_limit" "notes") by discriminate.
    now rewrite (field_errors_clean_field_ne "cpus" "notes") by discriminate.
Qed.

Lemma notes_accepts submitted :
  returns (CharField_clean SiteResourceLimitsForm_notes (Some submitted)) = true
  <-> ~ In 0%N (strip submitted).
Proof. apply packages_accepts. Qed.

Lemma strip_to_python f submitted :
  strip_value f = true ->
  strip (CharField_to_python f submitted) = CharField_to_python f submitted.
Proof.
  intros H. destruct submitted as [s|]; [|reflexivity].
  rewrite to_python_strip by assumption. apply strip_idem.
Qed.

Lemma packages_clean_no_null submitted :
  ~ In 0%N (CharField_to_python ImageSelectForm_packages submitted) ->
  CharField_clean ImageSelectForm_packages submitted
  = Return (CharField_to_python ImageSelectForm_packages submitted).
Proof.
  intros H.
  destruct (CharField_clean_cases ImageSelectForm_packages submitted)
    as [E|(e & errs & E)]; [exact E | exfalso].
  destruct submitted as [s|]; [|discriminate E].
  rewrite to_python_strip in H by reflexivity.
  apply packages_accepts in H. rewrite E in H. discriminate H.
Qed.

(** [ImageSelectForm] when the packages have no null character. *)
Lemma ImageSelectForm_outcome max image wr data :
  let packages := CharField_to_python ImageSelectForm_packages (data !! "packages") in
  let long := any (too_long max) (split packages) in
  ~ In 0%N packages ->
  exists st, ImageSelectForm_full_clean max image wr data = Ok st
    /\ field_errors "packages" st = (if long then [package_too_long] else [])
    /\ cleaned_data st !! "packages" = (if long then None else Some (VStr packages))
    /\ field_errors "image" st = errors_of image
    /\ field_errors "write_run_sh_file" st = errors_of wr
    /\ is_valid st = returns image && returns wr && negb long.
Proof.
  cbv zeta. intros Hn.
  unfold ImageSelectForm_full_clean, ImageSelectForm_clean_fields.
  rewrite (packages_clean_no_null _ Hn). cbn [outcome_map].
  set (p := CharField_to_python ImageSelectForm_packages (data !! "packages")).
  set (st0 := clean_field "write_run_sh_file" wr (clean_field "image" image initial_state)).
  unfold ImageSelectForm_clean. rewrite cleaned_data_clean_field.
  unfold p at 1. rewrite strip_to_python by reflexivity. fold p.
  fold (too_long max).
  assert (H0 : field_errors "packages" st0 = []).
  { unfold st0.
    rewrite (field_errors_clean_field_ne "write_run_sh_file" "packages") by discriminate.
    now rewrite (field_errors_clean_field_ne "image" "packages") by discriminate. }
  assert (Hi : field_errors "image" st0 = errors_of image).
  { unfold st0.
    rewrite (field_errors_clean_field_ne "write_run_sh_file" "image") by discriminate.
    now rewrite field_errors_clean_field. }
  assert (Hw : field_errors "write_run_sh_file" st0 = errors_of wr).
  { unfold st0. rewrite field_errors_clean_field.
    now rewrite (field_errors_clean_field_ne "image" "write_run_sh_file") by discriminate. }
  assert (Hv : is_valid st0 = returns image && returns wr).
  { unfold st0. rewrite !is_valid_clean_field.
    change (is_valid initial_state) with true.
    destruct (returns image), (returns wr); reflexivity. }
  destruct (any (too_long max) (split p)); eexists; (split; [reflexivity|]).
  - rewrite field_errors_add_error, cleaned_data_add_error, is_valid_add_error.
    rewrite (field_errors_add_error_ne "packages" "image") by discriminate.
    rewrite (field_errors_add_error_ne "packages" "write_run_sh_file") by discriminate.
    rewrite (field_errors_clean_field_ne "packages" "image") by discriminate.
    rewrite (field_errors_clean_field_ne "packages" "write_run_sh_file") by discriminate.
    rewrite field_errors_clean_field, H0, Hi, Hw. simpl.
    repeat split. now rewrite andb_false_r.
  - rewrite (field_errors_clean_field_ne "packages" "image") by discriminate.
    rewrite (field_errors_clean_field_ne "packages" "write_run_sh_file") by discriminate.
    rewrite field_errors_clean_field, cleaned_data_clean_field, is_valid_clean_field.
    rewrite H0, Hi, Hw, Hv. simpl. repeat split. now rewrite andb_true_r.
Qed.

End FormFacts.

Import FormFacts.

(* ===================================================================== *)
(** * The forms, statement by statement *)
(* ===================================================================== *)

Local Open Scope string_scope.

Lemma dashed_groups_search submitted :
  dashed_groups (strip submitted) <-> search name_regex (strip submitted) = true.
Proof.
  unfold name_regex. rewrite search_whole by reflexivity.
  now rewrite whole_stripped, lang_name_body.
Qed.

Lemma dashed_groups_matches v : dashed_groups v -> search name_regex v = true.
Proof.
  intros H. unfold name_regex. apply search_whole; [reflexivity|].
  exists v. split; [now apply lang_name_body | now left].
Qed.

Lemma mem_size_search submitted :
  strip submitted = [] \/ mem_size (strip submitted)
  <-> search mem_regex (strip submitted) = true.
Proof.
  unfold mem_regex. rewrite search_whole by reflexivity.
  now rewrite whole_stripped, lang_mem_body.
Qed.

Lemma mem_size_matches v : mem_size v -> search mem_regex v = true.
Proof.
  intros H. unfold mem_regex. apply search_whole; [reflexivity|].
  exists v. split; [apply lang_mem_body; now right | now left].
Qed.

(** ** [DomainForm] *)

(** C1, as stated, at a superuser's form with the domain [sites.tjhsst.edu]:
    the domain ends with the reserved suffix, the user is a superuser, and
    validation still leaves the error of the field's regex; the form is not
    valid. *)
Lemma C1_superuser_sites_rejected :
  endswith sites reserved = true
  /\ exists st, DomainForm_full_clean true {[ "domain" := sites ]} = Ok st
       /\ is_valid st = false
       /\ field_errors "domain" st = [domain_invalid].
Proof.
  split; [reflexivity|]. eexists. split; [reflexivity|].
  split; vm_compute; reflexivity.
Qed.

(** C1, amended. For every submitted domain that ends with [tjhsst.edu]:
    when the user is not a superuser, validation leaves an error on the
    domain field and the form is invalid; when the user is a superuser,
    [clean] adds nothing to the result of the field's own validation, so the
    form is valid exactly when the field accepts the domain. *)
Theorem C1_reserved_suffix (user_is_superuser : bool)
    (data : gmap string str) (d : str) :
  data !! "domain" = Some d ->
  endswith d reserved = true ->
  exists st, DomainForm_full_clean user_is_superuser data = Ok st
    /\ if user_is_superuser
       then st = DomainForm_clean_fields data
            /\ is_valid st = domain_field_accepts d
       else field_errors "domain" st <> [] /\ is_valid st = false.
Proof.
  intros Hd Hs. destruct user_is_superuser.
  - rewrite DomainForm_superuser. eexists. split; [reflexivity|].
    split; [reflexivity|]. rewrite DomainForm_clean_fields_valid, Hd. reflexivity.
  - destruct (DomainForm_nonsuperuser_reserved data d Hd Hs)
      as (st & H1 & H2 & H3 & _).
    exists st. auto.
Qed.

(** The amended C1 at a superuser's [tjhsst.edu]: the form is valid. *)
Lemma C1_reserved_suffix_witness :
  exists st, DomainForm_full_clean true {[ "domain" := lit "tjhsst.edu" ]} = Ok st
    /\ st = DomainForm_clean_fields {[ "domain" := lit "tjhsst.edu" ]}
    /\ is_valid st = true.
Proof.
  exact (C1_reserved_suffix true {[ "domain" := lit "tjhsst.edu" ]}
           (lit "tjhsst.edu") eq_refl eq_refl).
Defined.

(** C3. Whatever [user_is_superuser] is, a submitted domain equal to
    [sites.tjhsst.edu] or ending in [.sites.tjhsst.edu] is rejected: the
    error of the field's regex is among the errors of the domain field, the
    form is invalid and the domain does not reach [cleaned_data]. *)
Theorem C3_sites_domains_rejected (user_is_superuser : bool)
    (data : gmap string str) (d : str) :
  data !! "domain" = Some d ->
  d = sites \/ endswith d dot_sites = true ->
  exists st, DomainForm_full_clean user_is_superuser data = Ok st
    /\ In domain_invalid (field_errors "domain" st)
    /\ is_valid st = false
    /\ cleaned_data st !! "domain" = None.
Proof. apply DomainForm_sites_rejected. Qed.

(** C3 at a superuser's [a.sites.tjhsst.edu]. *)
Lemma C3_sites_domains_rejected_witness :
  exists st,
    DomainForm_full_clean true {[ "domain" := lit "a.sites.tjhsst.edu" ]} = Ok st
    /\ In domain_invalid (field_errors "domain" st)
    /\ is_valid st = false
    /\ cleaned_data st !! "domain" = None.
Proof.
  apply (C3_sites_domains_rejected true {[ "domain" := lit "a.sites.tjhsst.edu" ]}
           (lit "a.sites.tjhsst.edu")).
  - reflexivity.
  - right. reflexivity.
Defined.

(** C7. The restriction on non-superusers is a test on the characters at
    the end of the string: every submitted domain that ends with
    [tjhsst.edu] is rejected for a non-superuser, and when the field itself
    accepts the domain the only error is the one [clean] adds. *)
Theorem C7_plain_suffix_test (data : gmap string str) (d : str) :
  data !! "domain" = Some d ->
  endswith d reserved = true ->
  exists st, DomainForm_full_clean false data = Ok st
    /\ field_errors "domain" st <> []
    /\ is_valid st = false
    /\ cleaned_data st !! "domain" = None
    /\ (domain_field_accepts d = true ->
        field_errors "domain" st = [administrators_only]).
Proof. apply DomainForm_nonsuperuser_reserved. Qed.

(** C7 at [nottjhsst.edu], which is not a subdomain of [tjhsst.edu]. *)
Lemma C7_plain_suffix_test_witness :
  exists st,
    DomainForm_full_clean false {[ "domain" := lit "nottjhsst.edu" ]} = Ok st
    /\ field_errors "domain" st <> []
    /\ is_valid st = false
    /\ cleaned_data st !! "domain" = None
    /\ (domain_field_accepts (lit "nottjhsst.edu") = true ->
        field_errors "domain" st = [administrators_only]).
Proof.
  apply (C7_plain_suffix_test {[ "domain" := lit "nottjhsst.edu" ]}
           (lit "nottjhsst.edu")); reflexivity.
Defined.

(** The same domain from a superuser is accepted: the field has nothing
    against it. *)
Example nottjhsst_superuser :
  domain_field_accepts (lit "nottjhsst.edu") = true
  /\ exists st,
       DomainForm_full_clean true {[ "domain" := lit "nottjhsst.edu" ]} = Ok st
       /\ is_valid st = true.
Proof.
  split; [reflexivity|]. eexists. split; [reflexivity|]. vm_compute. reflexivity.
Qed.

(** ** [SiteNamesForm] *)

(** C2, as stated, at the submitted string ["ab "]: the field accepts it,
    and it is not made of groups joined by dashes (it has a space). *)
Lemma C2_trailing_space_accepted :
  name_accepts (lit "ab ") = true
  /\ ~ ((2 <= length (lit "ab ") <= 32)%nat /\ dashed_groups (lit "ab ")).
Proof.
  split; [reflexivity|]. intros [_ H].
  apply dashed_groups_matches in H. discriminate H.
Qed.

(** C2, amended. The field strips the submitted string first. It accepts
    the string if and only if the stripped value has 2 to 32 characters and
    consists of groups of lowercase letters and digits joined by single
    dashes; for a stripped value that is the same as matching
    [^[a-z0-9]+(-[a-z0-9]+)*$], and the same as: not empty, only lowercase
    letters, digits and dashes, no dash first or last, no two dashes in a
    row. *)
Theorem C2_site_name (submitted : str) :
  (name_accepts submitted = true <->
     (2 <= length (strip submitted) <= 32)%nat /\ dashed_groups (strip submitted))
  /\ (dashed_groups (strip submitted) <-> search name_regex (strip submitted) = true)
  /\ (dashed_groups (strip submitted) <-> interior_dashes (strip submitted)).
Proof.
  split; [apply name_accepts_iff|].
  split; [apply dashed_groups_search | apply dashed_groups_iff_interior].
Qed.

(** C8. Names that begin with a digit are accepted: ["0a"], and every
    digit followed by ["a"]. *)
Theorem C8_leading_digit_accepted :
  name_accepts (lit "0a") = true
  /\ Forall (fun d => name_accepts [d; ord "a"] = true) (lit "0123456789").
Proof. split; [reflexivity|]. repeat constructor. Qed.

(** ** [ImageSelectForm] *)

(** C4 fails on the code when the stripped string has a null character: the
    field rejects the value, [packages] is missing from [cleaned_data], and
    [clean] raises [KeyError] instead of looking at the tokens. *)
Theorem C4_null_character_KeyError (max_package_name_length : nat)
    (image write_run_sh_file : outcome value)
    (data : gmap string str) (submitted : str) :
  data !! "packages" = Some submitted ->
  In 0%N (strip submitted) ->
  ImageSelectForm_full_clean max_package_name_length image write_run_sh_file data
  = Throw (KeyError "packages").
Proof. apply ImageSelectForm_null. Qed.

(** C4's failing input: a null character followed by a name of four
    characters, with a maximum of three. *)
Lemma C4_null_character_KeyError_witness :
  ImageSelectForm_full_clean 3 (Return (VStr [])) (Return (VBool false))
    {[ "packages" := (0%N :: lit "aaaa") ]}
  = Throw (KeyError "packages").
Proof.
  apply (C4_null_character_KeyError 3 (Return (VStr [])) (Return (VBool false))
           {[ "packages" := (0%N :: lit "aaaa") ]} (0%N :: lit "aaaa")).
  - reflexivity.
  - left. reflexivity.
Defined.

(** X1. Without a null character the claim C4 holds: validation returns, and the
    error is on the [packages] field if and only if a token of the stripped
    string is longer than the maximum; a string of whitespace gives no
    error. *)
Theorem X1_packages_tokens (max_package_name_length : nat)
    (image write_run_sh_file : outcome value)
    (data : gmap string str) (submitted : str) :
  data !! "packages" = Some submitted ->
  ~ In 0%N (strip submitted) ->
  exists st,
    ImageSelectForm_full_clean max_package_name_length image write_run_sh_file data
    = Ok st
    /\ (In package_too_long (field_errors "packages" st)
        <-> any (too_long max_package_name_length) (split (strip submitted)) = true)
    /\ (Forall (fun c => isspace c = true) submitted ->
        ~ In package_too_long (field_errors "packages" st)).
Proof.
  intros Hd Hn.
  destruct (ImageSelectForm_tokens max_package_name_length image write_run_sh_file
              data submitted Hd Hn) as (st & Hst & Hiff).
  exists st. split; [exact Hst|]. split; [exact Hiff|].
  intros Hws Hin. apply Hiff in Hin. rewrite strip_spaces in Hin by assumption.
  discriminate Hin.
Qed.

Lemma X1_packages_tokens_witness :
  exists st,
    ImageSelectForm_full_clean 3 (Return (VStr [])) (Return (VBool false))
      {[ "packages" := lit " abc  abcd " ]} = Ok st
    /\ (In package_too_long (field_errors "packages" st)
        <-> any (too_long 3) (split (strip (lit " abc  abcd "))) = true)
    /\ (Forall (fun c => isspace c = true) (lit " abc  abcd ") ->
        ~ In package_too_long (field_errors "packages" st)).
Proof.
  apply (X1_packages_tokens 3 (Return (VStr [])) (Return (VBool false))
           {[ "packages" := lit " abc  abcd " ]} (lit " abc  abcd ")).
  - reflexivity.
  - vm_compute. intuition discriminate.
Defined.

(** ** [SiteResourceLimitsForm] *)

(** C5, as stated, at the submitted string ["1 "]: the field accepts it,
    and it is neither empty nor digits with an optional suffix. *)
Lemma C5_trailing_space_accepted :
  mem_limit_accepts (lit "1 ") = true
  /\ ~ ((length (lit "1 ") <= 10)%nat
        /\ (lit "1 " = [] \/ mem_size (lit "1 "))).
Proof.
  split; [reflexivity|]. intros [_ [H|H]]; [discriminate H|].
  apply mem_size_matches in H. discriminate H.
Qed.

(** C5, amended. The field strips the submitted string first. It accepts
    the string if and only if the stripped value has at most 10 characters
    and is empty or is a non-empty sequence of digits, alone or followed by
    optional whitespace and one of KiB, MiB, GiB, KB, MB, GB; for a stripped
    value that is the same as matching [^(\d+(\s*[KMG]i?B)?)?$]. *)
Theorem C5_mem_limit (submitted : str) :
  (mem_limit_accepts submitted = true <->
     (length (strip submitted) <= 10)%nat
     /\ (strip submitted = [] \/ mem_size (strip submitted)))
  /\ (strip submitted = [] \/ mem_size (strip submitted)
      <-> search mem_regex (strip submitted) = true).
Proof. split; [apply mem_limit_accepts_iff | apply mem_size_search]. Qed.

(** C6. With [float] the conversion of the interpreter: the field accepts a
    submitted value if and only if it is blank or converts to a float [v]
    with [0 <= v <= 3]; a value that converts to a float below 0 or above 3
    is rejected. *)
Theorem C6_cpus_bounds (float : str -> option spec_float)
    (submitted : option str) :
  (cpus_accepts float submitted = true <->
     blank submitted
     \/ exists s v, submitted = Some s /\ float s = Some v
          /\ SFleb zero v = true /\ SFleb v three = true)
  /\ (forall s v, submitted = Some s -> s <> [] -> float s = Some v ->
        SFltb v zero = true \/ SFltb three v = true ->
        cpus_accepts float submitted = false).
Proof.
  assert (Hiff : cpus_accepts float submitted = true <->
     blank submitted
     \/ exists s v, submitted = Some s /\ float s = Some v
          /\ SFleb zero v = true /\ SFleb v three = true).
  { rewrite cpus_accepts_iff. unfold blank. tauto. }
  split; [exact Hiff|].
  intros s v -> Hne Hf Hout. apply not_true_iff_false. intros H.
  apply Hiff in H as [[H|H]|(s' & v' & [= <-] & Hf' & Hb)]; try congruence.
  rewrite Hf in Hf'. injection Hf' as <-.
  now apply (below_or_above_rejected v).
Qed.

(** C6 at the submitted value ["4"]. *)
Lemma C6_cpus_bounds_witness :
  cpus_accepts float_of_digit (Some (lit "4")) = false.
Proof.
  apply (proj2 (C6_cpus_bounds float_of_digit (Some (lit "4")))
           (lit "4") (float_of_int 4)).
  - reflexivity.
  - discriminate.
  - reflexivity.
  - right. reflexivity.
Defined.

(* ===================================================================== *)
(** * More about the forms *)
(* ===================================================================== *)

(** ** [DomainForm] *)

(** X2. Validation of a [DomainForm] never raises, and the domain field ends
    in one of three ways. When the field itself raises, its errors are the
    errors of the form. When the field returns [v], the user is not a
    superuser and [v] ends with [tjhsst.edu], the one error is the
    administrators-only error. Otherwise there is no error and
    [cleaned_data["domain"]] is [v]. The domain is in [cleaned_data] exactly
    when the form is valid. *)
Theorem X2_DomainForm_outcome (user_is_superuser : bool) (data : gmap string str) :
  exists st, DomainForm_full_clean user_is_superuser data = Ok st
    /\ match CharField_clean DomainForm_domain (data !! "domain") with
       | Raise errs =>
           field_errors "domain" st = errs
           /\ cleaned_data st !! "domain" = None /\ is_valid st = false
       | Return v =>
           if negb user_is_superuser && endswith v reserved
           then field_errors "domain" st = [administrators_only]
                /\ cleaned_data st !! "domain" = None /\ is_valid st = false
           else field_errors "domain" st = []
                /\ cleaned_data st !! "domain" = Some (VStr v) /\ is_valid st = true
       end.
Proof. apply DomainForm_outcome. Qed.

(** X3. The domain field accepts a submitted string if and only if the
    stripped value is empty, or has at most 255 characters, all of them
    among [0-9a-zA-Z_-], space and dot, and is neither [sites.tjhsst.edu]
    nor a name ending in [.sites.tjhsst.edu]. *)
Theorem X3_domain_field_accepts (submitted : str) :
  domain_field_accepts submitted = true <->
  strip submitted = []
  \/ ((length (strip submitted) <= 255)%nat
      /\ Forall (fun c => is_domain_char c = true) (strip submitted)
      /\ under_sites (strip submitted) = false).
Proof. apply domain_field_accepts_iff. Qed.

(** X4. A [DomainForm] whose data has no [domain] key, or only whitespace
    under it, is valid for every user and cleans to the empty string. *)
Theorem X4_DomainForm_blank (user_is_superuser : bool) (data : gmap string str) :
  data !! "domain" = None
  \/ (exists ws, data !! "domain" = Some ws /\ Forall (fun c => isspace c = true) ws) ->
  exists st, DomainForm_full_clean user_is_superuser data = Ok st
    /\ is_valid st = true
    /\ cleaned_data st !! "domain" = Some (VStr []).
Proof. apply DomainForm_blank. Qed.

Lemma X4_DomainForm_blank_witness :
  exists st, DomainForm_full_clean false ∅ = Ok st
    /\ is_valid st = true
    /\ cleaned_data st !! "domain" = Some (VStr []).
Proof. apply (X4_DomainForm_blank false ∅). left. reflexivity. Defined.

(** X5. What is valid for a user who is not a superuser is valid for a
    superuser, with the same state. *)
Theorem X5_superuser_widens (data : gmap string str) (st : form_state) :
  DomainForm_full_clean false data = Ok st ->
  is_valid st = true ->
  DomainForm_full_clean true data = Ok st.
Proof. apply DomainForm_superuser_widens. Qed.

Lemma X5_superuser_widens_witness :
  DomainForm_full_clean true {[ "domain" := lit "example.com" ]}
  = Ok (DomainForm_clean_fields {[ "domain" := lit "example.com" ]}).
Proof.
  apply (X5_superuser_widens {[ "domain" := lit "example.com" ]}).
  - reflexivity.
  - vm_compute. reflexivity.
Defined.

(** X6. The two forms together: for every name [SiteNamesForm] accepts, the
    domain [<cleaned name>.sites.tjhsst.edu] is rejected by [DomainForm]
    for every user, and the error of the field's regex is the only error. *)
Theorem X6_generated_domain_rejected (user_is_superuser : bool)
    (data : gmap string str) (n : str) :
  name_accepts n = true ->
  data !! "domain" = Some (strip n ++ dot_sites)%list ->
  exists st, DomainForm_full_clean user_is_superuser data = Ok st
    /\ field_errors "domain" st = [domain_invalid]
    /\ is_valid st = false.
Proof. apply DomainForm_generated_domain. Qed.

Lemma X6_generated_domain_rejected_witness :
  exists st,
    DomainForm_full_clean true {[ "domain" := lit "my-app.sites.tjhsst.edu" ]} = Ok st
    /\ field_errors "domain" st = [domain_invalid]
    /\ is_valid st = false.
Proof.
  apply (X6_generated_domain_rejected true
           {[ "domain" := lit "my-app.sites.tjhsst.edu" ]} (lit " my-app "));
    reflexivity.
Defined.

(** ** The character fields *)

(** X7. For each [CharField] of the forms ([name], [domain], [packages],
    [mem_limit], [notes]): when the field cleans a submitted string to [v],
    it cleans [v] to [v]. *)
Theorem X7_clean_idempotent (f : CharField) (s v : str) :
  In f source_char_fields ->
  CharField_clean f (Some s) = Return v ->
  CharField_clean f (Some v) = Return v.
Proof. intros _. apply CharField_clean_idem. Qed.

Lemma X7_clean_idempotent_witness :
  CharField_clean SiteResourceLimitsForm_mem_limit (Some (lit "12 GB"))
  = Return (lit "12 GB").
Proof.
  apply (X7_clean_idempotent SiteResourceLimitsForm_mem_limit
           (lit "  12 GB ") (lit "12 GB")).
  - right. right. right. left. reflexivity.
  - reflexivity.
Defined.

(** ** [SiteNamesForm] *)

(** X8. When a bound [SiteNamesForm] is valid, its cleaned name is the
    stripped submitted name, and the form [build_for_site] makes for a site
    with that name is valid again, with the same cleaned name. *)
Theorem X8_build_for_site_round_trip (data : gmap string str) (s : str) :
  data !! "name" = Some s ->
  is_valid (SiteNamesForm_full_clean data) = true ->
  cleaned_data (SiteNamesForm_full_clean data) !! "name" = Some (VStr (strip s))
  /\ (let st := SiteNamesForm_full_clean
                  (SiteNamesForm_build_for_site {| site_name := strip s |}) in
      is_valid st = true /\ cleaned_data st !! "name" = Some (VStr (strip s))).
Proof. apply SiteNamesForm_round_trip. Qed.

Lemma X8_build_for_site_round_trip_witness :
  cleaned_data (SiteNamesForm_full_clean {[ "name" := lit " my-site " ]}) !! "name"
  = Some (VStr (lit "my-site"))
  /\ (let st := SiteNamesForm_full_clean
                  (SiteNamesForm_build_for_site {| site_name := lit "my-site" |}) in
      is_valid st = true /\ cleaned_data st !! "name" = Some (VStr (lit "my-site"))).
Proof.
  apply (X8_build_for_site_round_trip {[ "name" := lit " my-site " ]} (lit " my-site ")).
  - reflexivity.
  - vm_compute. reflexivity.
Defined.

(** X9. A [SiteNamesForm] whose data has no [name] key, or only whitespace
    under it, gets the one error "This field is required.": the length and
    regex validators do not run. *)
Theorem X9_blank_name_required (data : gmap string str) :
  data !! "name" = None
  \/ (exists ws, data !! "name" = Some ws /\ Forall (fun c => isspace c = true) ws) ->
  field_errors "name" (SiteNamesForm_full_clean data) = [required_error]
  /\ is_valid (SiteNamesForm_full_clean data) = false.
Proof. apply SiteNamesForm_blank. Qed.

Lemma X9_blank_name_required_witness :
  field_errors "name" (SiteNamesForm_full_clean {[ "name" := lit "   " ]})
  = [required_error]
  /\ is_valid (SiteNamesForm_full_clean {[ "name" := lit "   " ]}) = false.
Proof.
  apply (X9_blank_name_required {[ "name" := lit "   " ]}).
  right. exists (lit "   "). split; [reflexivity|]. repeat constructor.
Defined.

(** ** [SiteResourceLimitsForm] *)

(** X10. For a submitted text that is not empty and converts to the float
    [v], [cpus] raises "Enter a number." when [v] is not finite, the
    maximum error alone when [v > 3], the minimum error alone when [v < 0],
    and returns [v] otherwise. *)
Theorem X10_cpus_outcome (float : str -> option spec_float) (s : str)
    (v : spec_float) :
  s <> [] -> float s = Some v ->
  FloatField_clean float SiteResourceLimitsForm_cpus (Some s)
  = if negb (isfinite v) then Raise [invalid_number]
    else if SFltb three v then Raise [max_value_error]
    else if SFltb v zero then Raise [min_value_error]
    else Return (Some v).
Proof. apply cpus_clean_float. Qed.

Lemma X10_cpus_outcome_witness :
  FloatField_clean float_of_digit SiteResourceLimitsForm_cpus (Some (lit "4"))
  = Raise [max_value_error].
Proof.
  apply (X10_cpus_outcome float_of_digit (lit "4") (float_of_int 4));
    [discriminate | reflexivity].
Defined.

(** X11. Whatever is submitted, when [cpus] raises it raises exactly one
    error: "Enter a number.", the maximum error or the minimum error. *)
Theorem X11_cpus_one_error (float : str -> option spec_float)
    (submitted : option str) (errs : list ValidationError) :
  FloatField_clean float SiteResourceLimitsForm_cpus submitted = Raise errs ->
  errs = [invalid_number] \/ errs = [max_value_error] \/ errs = [min_value_error].
Proof. apply cpus_one_error. Qed.

Lemma X11_cpus_one_error_witness :
  [invalid_number] = [invalid_number]
  \/ [invalid_number] = [max_value_error]
  \/ [invalid_number] = [min_value_error].
Proof.
  apply (X11_cpus_one_error float_of_digit (Some (lit "x")) [invalid_number]).
  reflexivity.
Defined.

(** X12. [SiteResourceLimitsForm] judges its three fields one by one: the
    form is valid exactly when [cpus], [mem_limit] and [notes] each accept
    what was submitted for them, and the errors of each field are the
    errors that field raised. *)
Theorem X12_SiteResourceLimitsForm_outcome (float : str -> option spec_float)
    (data : gmap string str) :
  let st := SiteResourceLimitsForm_full_clean float data in
  let cpus := FloatField_clean float SiteResourceLimitsForm_cpus (data !! "cpus") in
  let mem := CharField_clean SiteResourceLimitsForm_mem_limit (data !! "mem_limit") in
  let notes := CharField_clean SiteResourceLimitsForm_notes (data !! "notes") in
  is_valid st = returns cpus && returns mem && returns notes
  /\ field_errors "cpus" st = errors_of cpus
  /\ field_errors "mem_limit" st = errors_of mem
  /\ field_errors "notes" st = errors_of notes.
Proof. apply SiteResourceLimitsForm_outcome. Qed.

(** ** [ImageSelectForm] *)

(** X13. When the cleaned packages string (empty when the key is absent)
    has no null character, validation of [ImageSelectForm] returns. With a
    token longer than the maximum, the one error of [packages] is the
    too-long error and [packages] leaves [cleaned_data]; without, [packages]
    has no error and is cleaned to the stripped string. Either way the
    errors of [image] and [write_run_sh_file] are what their fields raised,
    and the form is valid exactly when those two fields returned and no
    token is too long. *)
Theorem X13_ImageSelectForm_outcome (max_package_name_length : nat)
    (image write_run_sh_file : outcome value) (data : gmap string str) :
  let packages := CharField_to_python ImageSelectForm_packages (data !! "packages") in
  let long := any (too_long max_package_name_length) (split packages) in
  ~ In 0%N packages ->
  exists st,
    ImageSelectForm_full_clean max_package_name_length image write_run_sh_file data
    = Ok st
    /\ field_errors "packages" st = (if long then [package_too_long] else [])
    /\ cleaned_data st !! "packages" = (if long then None else Some (VStr packages))
    /\ field_errors "image" st = errors_of image
    /\ field_errors "write_run_sh_file" st = errors_of write_run_sh_file
    /\ is_valid st = returns image && returns write_run_sh_file && negb long.
Proof. apply ImageSelectForm_outcome. Qed.

Lemma X13_ImageSelectForm_outcome_witness :
  exists st,
    ImageSelectForm_full_clean 3 (Return (VStr [])) (Return (VBool false)) ∅ = Ok st
    /\ field_errors "packages" st = []
    /\ cleaned_data st !! "packages" = Some (VStr [])
    /\ field_errors "image" st = []
    /\ field_errors "write_run_sh_file" st = []
    /\ is_valid st = true.
Proof.
  pose proof (X13_ImageSelectForm_outcome 3 (Return (VStr [])) (Return (VBool false)) ∅)
    as H.
  vm_compute in H. vm_compute. apply H. intros [].
Defined.

(** X14. The tokens [clean] looks at: stripping before splitting changes
    nothing, every token is non-empty and without whitespace, and a token is
    longer than the maximum exactly when the submitted string has a run of
    more than that many characters without whitespace. *)
Theorem X14_package_tokens (max_package_name_length : nat) (submitted : str) :
  split (strip submitted) = split submitted
  /\ Forall (fun t => t <> [] /\ Forall nonspace t) (split (strip submitted))
  /\ (any (too_long max_package_name_length) (split (strip submitted)) = true <->
      exists w, infix_of w submitted /\ Forall nonspace w
                /\ (max_package_name_length < length w)%nat).
Proof.
  rewrite split_strip. split; [reflexivity|]. split.
  - apply (split_from_nonspace submitted []). constructor.
  - apply any_too_long_iff.
Qed.
